(** * defects4cpp: the taxonomy registry, the MetaData loader and the build command

    A shallow embedding of [defects4cpp/taxonomy/__init__.py] and of
    [defects4cpp/processor/build.py].

    Conventions of the embedding.
    - A Python exception is a value of [exn]; a computation that may raise
      returns [Res A].  Code that also mutates objects or touches the file
      system lives in [M S A := S -> Res A * S]: the state that was reached
      when an exception is raised is kept, as in Python.
    - The document returned by [json.load] is a [json] value.  Numbers are
      integers (the descriptor format has no other numbers); an object is
      the list of its items in insertion order, the first binding of a key
      being the live one.
    - A string is a sequence of ASCII characters.  Paths are POSIX paths
      and are compared as strings; the file system is a finite map from
      paths to entries.
    - Every object held by a lazy field carries an identity ([oid]) drawn
      from a counter of the world, so that "the same object" and "a fresh
      object" can be told apart.
    - [assert] statements are executed (the interpreter runs without -O). *)

From Stdlib Require Import ZArith Ascii DecimalString DecimalN.
From stdpp Require Import gmap strings list.

Open Scope string_scope.
Set Warnings "-register-all".

(** ** Exceptions and the two monads *)

Inductive exn : Type :=
| KeyError (key : string)
| TypeError
| AttributeError
| ValueError
| FileNotFoundError (path : string)
| IsADirectoryError (path : string)
| JSONDecodeError
| AssertionError (msg : string)
| RuntimeError (msg : string)
| SystemExit
| DppTaxonomyInitError (field record : string).

Inductive Res (A : Type) : Type :=
| Ok (a : A)
| Raise (e : exn).
Arguments Ok {A} a.
Arguments Raise {A} e.

#[global] Instance Res_ret : MRet Res := λ A a, Ok a.
#[global] Instance Res_bind : MBind Res := λ A B f m,
  match m with
  | Ok a => f a
  | Raise e => Raise e
  end.

#[global] Instance Res_fmap : FMap Res := λ A B f m,
  match m with
  | Ok a => Ok (f a)
  | Raise e => Raise e
  end.

(** [try: m except KeyError as e: raise h(e.args[0])]. *)
Definition except_KeyError {A} (m : Res A) (h : string → exn) : Res A :=
  match m with
  | Raise (KeyError k) => Raise (h k)
  | r => r
  end.

(** A list comprehension whose element expression may raise. *)
Fixpoint comprehension {A B} (f : A → Res B) (l : list A) : Res (list B) :=
  match l with
  | [] => Ok []
  | x :: l' => y ← f x; ys ← comprehension f l'; Ok (y :: ys)
  end.

Definition M (St A : Type) : Type := St → Res A * St.

#[global] Instance M_ret {St} : MRet (M St) := λ A a s, (Ok a, s).
#[global] Instance M_bind {St} : MBind (M St) := λ A B f m s,
  match m s with
  | (Ok a, s') => f a s'
  | (Raise e, s') => (Raise e, s')
  end.

Definition raise {St A} (e : exn) : M St A := λ s, (Raise e, s).
Definition lift_res {St A} (r : Res A) : M St A := λ s, (r, s).
Definition gets {St A} (f : St → A) : M St A := λ s, (Ok (f s), s).
Definition modify {St} (f : St → St) : M St unit := λ s, (Ok tt, f s).

(** Runs a computation on the first component of a pair of states. *)
Definition on_fst {St T A} (m : M St A) : M (St * T) A := λ st,
  let '(r, s') := m st.1 in (r, (s', st.2)).

(** ** Parsed JSON documents and the Python operations used on them *)

Inductive json : Type :=
| JNull
| JBool (b : bool)
| JInt (n : Z)
| JStr (s : string)
| JArr (items : list json)
| JObj (members : list (string * json)).

Fixpoint dict_get (members : list (string * json)) (k : string) : option json :=
  match members with
  | [] => None
  | (k', v) :: rest => if String.eqb k' k then Some v else dict_get rest k
  end.

Definition dict_keys (members : list (string * json)) : list string :=
  remove_dups (members.*1).

(** [v[k]] for a string key [k]. *)
Definition subscript (v : json) (k : string) : Res json :=
  match v with
  | JObj members =>
      match dict_get members k with
      | Some x => Ok x
      | None => Raise (KeyError k)
      end
  | _ => Raise TypeError
  end.

Notation "v .[ k ]" := (subscript v k) (at level 1, left associativity, format "v .[ k ]").

(** [r[k]] where the subscripted expression [r] may itself raise. *)
Definition subscript_in (r : Res json) (k : string) : Res json :=
  v ← r; v.[k].

Notation "r >.[ k ]" := (subscript_in r k) (at level 1, left associativity, format "r  >.[ k ]").

Fixpoint chars (s : string) : list string :=
  match s with
  | EmptyString => []
  | String c s' => String c EmptyString :: chars s'
  end.

(** [for x in v]: the elements of a list, the characters of a string, the
    keys of a dict; nothing else is iterable. *)
Definition iterate (v : json) : Res (list json) :=
  match v with
  | JArr items => Ok items
  | JStr s => Ok (JStr <$> chars s)
  | JObj members => Ok (JStr <$> dict_keys members)
  | _ => Raise TypeError
  end.

(** [s.replace(old, new)] for a non-empty [old]: every occurrence, scanning
    from the left, occurrences not overlapping.  [skip] counts the characters
    of the occurrence just replaced that are still to be passed over. *)
Fixpoint replace_from (old new : string) (skip : nat) (s : string) : string :=
  match s with
  | EmptyString => EmptyString
  | String c s' =>
      match skip with
      | S k => replace_from old new k s'
      | O =>
          if String.prefix old s
          then new +:+ replace_from old new (String.length old - 1) s'
          else String c (replace_from old new 0 s')
      end
  end.

Definition str_replace (old new s : string) : string := replace_from old new 0 s.

(** [opt.replace(old, new)]: only strings have the method. *)
Definition method_replace (old new : string) (opt : json) : Res string :=
  match opt with
  | JStr s => Ok (str_replace old new s)
  | _ => Raise AttributeError
  end.

(** Decimal digits of a natural number. *)
Definition decimal (n : N) : string := NilZero.string_of_uint (N.to_uint n).

Fixpoint zeros (k : nat) : string :=
  match k with
  | O => EmptyString
  | S k' => String "0"%char (zeros k')
  end.

(** [format(n, "04")] for an integer: fill character 0, minimal width 4, the
    padding placed after the sign. *)
Definition format_int_04 (n : Z) : string :=
  let digits := decimal (Z.abs_N n) in
  if (n <? 0)%Z
  then "-" +:+ zeros (3 - String.length digits) +:+ digits
  else zeros (4 - String.length digits) +:+ digits.

(** ** The record types of the taxonomy *)

Inductive TestType : Type := Automake | CTest | GoogleTest.

Definition TestType_value (t : TestType) : Z :=
  match t with
  | Automake => 1
  | CTest => 2
  | GoogleTest => 3
  end.

Record Gcov : Type := mkGcov {
  exclude : list json;
  command : json
}.

Record Common : Type := mkCommon {
  build_command : list string;
  build_coverage_command : list string;
  test_type : option TestType;
  test_command : list string;
  test_coverage_command : list string;
  gcov : Gcov
}.

Record Defect : Type := mkDefect {
  hash : json;
  buggy_patch : string;
  split_patch : string;
  cases : json
}.

Record MetaInfo : Type := mkMetaInfo {
  url : json;
  description : json;
  vcs : json
}.

(** An object: a value together with its identity. *)
Record obj (A : Type) : Type := Obj {
  oid : nat;
  oval : A
}.
Arguments Obj {A} oid oval.
Arguments oid {A} o.
Arguments oval {A} o.

Record MetaData : Type := mkMetaData {
  name : string;
  _path : string;
  _info : option (obj MetaInfo);
  _common : option (obj Common);
  _defects : obj (list (obj Defect))
}.

(** ** The world: file system, log of the files read, object counter *)

Inductive entry : Type :=
| Directory
| Undecodable
| Document (doc : json).

Record World : Type := mkWorld {
  fs : gmap string entry;
  opened : list string;
  next_id : nat
}.

(** [os.path.exists]. *)
Definition exists_ (p : string) : M World bool :=
  gets (λ w, bool_decide (is_Some (fs w !! p))).

(** [with open(p, "r", encoding="utf-8") as fp: json.load(fp)].  A file that
    is opened is recorded in [opened], most recent first. *)
Definition open_json_load (p : string) : M World json := λ w,
  match fs w !! p with
  | None => (Raise (FileNotFoundError p), w)
  | Some Directory => (Raise (IsADirectoryError p), w)
  | Some Undecodable =>
      (Raise JSONDecodeError, mkWorld (fs w) (p :: opened w) (next_id w))
  | Some (Document doc) =>
      (Ok doc, mkWorld (fs w) (p :: opened w) (next_id w))
  end.

(** Construction of an object: the next identity is handed out. *)
Definition new {A} (v : A) : M World (obj A) := λ w,
  (Ok (Obj (next_id w) v), mkWorld (fs w) (opened w) (S (next_id w))).

Fixpoint new_each {A} (l : list A) : M World (list (obj A)) :=
  match l with
  | [] => mret []
  | v :: l' => o ← new v; os ← new_each l'; mret (o :: os)
  end.

(** The environment rewrites a file between two calls of the program. *)
Definition write_file (p : string) (e : entry) (w : World) : World :=
  mkWorld (<[p := e]> (fs w)) (opened w) (next_id w).

(** [os.path.join] of posixpath. *)
Definition ends_with_sep (p : string) : bool :=
  match String.get (String.length p - 1) p with
  | Some c => bool_decide (c = "/"%char)
  | None => false
  end.

Definition join2 (path b : string) : string :=
  if String.prefix "/" b then b
  else if bool_decide (path = "") || ends_with_sep path then path +:+ b
  else path +:+ "/" +:+ b.

Definition join (a : string) (p : list string) : string := foldl join2 a p.

(** A loop that runs a stateful body on every element, in order. *)
Fixpoint for_each {St A B} (f : A → M St B) (l : list A) : M St (list B) :=
  match l with
  | [] => mret []
  | x :: l' => y ← f x; ys ← for_each f l'; mret (y :: ys)
  end.

(** ** taxonomy/__init__.py: MetaData *)

Definition set_info (i : obj MetaInfo) (self : MetaData) : MetaData :=
  mkMetaData (name self) (_path self) (Some i) (_common self) (_defects self).
Definition set_common (c : obj Common) (self : MetaData) : MetaData :=
  mkMetaData (name self) (_path self) (_info self) (Some c) (_defects self).
Definition set_defects (d : obj (list (obj Defect))) (self : MetaData) : MetaData :=
  mkMetaData (name self) (_path self) (_info self) (_common self) d.

(** The state of a method of [MetaData]: the world and [self]. *)
Abbreviation self_state := (World * MetaData)%type.

Section Loader.

(** [config.DPP_MAKE_JOB]: the module [config] is outside the sources. *)
Variable DPP_MAKE_JOB : string.

(** [format(s, "04")] for a string [s]: interpreters before 3.10 raise
    ValueError, later ones pad; the loader is modelled for both. *)
Variable format_str_04 : string → Res string.

(** [f"{v:04}"]. *)
Definition format_04 (v : json) : Res string :=
  match v with
  | JInt n => Ok (format_int_04 n)
  | JBool b => Ok (format_int_04 (if b then 1 else 0))
  | JStr s => format_str_04 s
  | _ => Raise TypeError
  end.

(** [MetaData.__init__]. *)
Definition MetaData_init (name path : string) : M World MetaData :=
  l ← new [];
  mret (mkMetaData name path None None l).

Definition dockerfile (self : MetaData) : string := _path self +:+ "/Dockerfile".

(** The element expression [Defect(...)] of the comprehension of
    [_load_info]. *)
Definition defect_entry (path : string) (defect : json) : Res Defect :=
  h ← defect.["hash"];
  b ← defect.["patch"] ≫= format_04;
  s ← defect.["patch"] ≫= format_04;
  c ← defect.["cases"];
  Ok (mkDefect h
        (path +:+ "/patch/" +:+ b +:+ "-buggy.patch")
        (path +:+ "/patch/" +:+ s +:+ "-split.patch")
        c).

(** The [try] block of [_load_info].  In the source this method, despite
    its name, builds the list of defects: the list that is assigned to
    [self._defects], or the exception that leaves the method. *)
Definition _load_info_value (path : string) (meta : json) : Res (list Defect) :=
  except_KeyError
    (entries ← meta.["defects"] ≫= iterate;
     comprehension (defect_entry path) entries)
    (λ k, DppTaxonomyInitError k "MetaInfo").

Definition _load_info (meta : json) : M self_state unit :=
  path ← gets (λ st, _path st.2);
  ds ← lift_res (_load_info_value path meta);
  l ← on_fst (os ← for_each new ds; new os);
  modify (λ st, (st.1, set_defects l st.2)).

Definition replace_make_job_flags (options : json) : Res (list string) :=
  opts ← iterate options;
  comprehension (method_replace "@DPP_MAKE_JOB@" DPP_MAKE_JOB) opts.

Definition to_enum (value : json) : option TestType :=
  match value with
  | JStr s =>
      if String.eqb s "automake" then Some Automake
      else if String.eqb s "ctest" then Some CTest
      else if String.eqb s "gtest" then Some GoogleTest
      else None
  | _ => None
  end.

(** The [try] block of [_load_common]: the record that is assigned to
    [self._common], or the exception that leaves the method. *)
Definition _load_common_value (meta : json) : Res Common :=
  except_KeyError
    (b ← meta.["common"] >.["build"] >.["command"]
           ≫= replace_make_job_flags;
     bc ← meta.["common"] >.["build-coverage"] >.["command"]
           ≫= replace_make_job_flags;
     ty ← to_enum <$> meta.["common"] >.["test-type"];
     t ← meta.["common"] >.["test"] >.["command"]
           ≫= replace_make_job_flags;
     tc ← meta.["common"] >.["test-coverage"] >.["command"]
           ≫= replace_make_job_flags;
     ex ← meta.["common"] >.["gcov"] >.["exclude"] ≫= iterate;
     cmd ← meta.["common"] >.["gcov"] >.["command"];
     Ok (mkCommon b bc ty t tc (mkGcov ex cmd)))
    (λ k, DppTaxonomyInitError k "Common").

Definition _load_common (meta : json) : M self_state unit :=
  c ← lift_res (_load_common_value meta);
  o ← on_fst (new c);
  modify (λ st, (st.1, set_common o st.2)).

(** The [try] block of [_load_defects].  In the source this method, despite
    its name, builds the info record: the record that is assigned to
    [self._info], or the exception that leaves the method. *)
Definition _load_defects_value (meta : json) : Res MetaInfo :=
  except_KeyError
    (u ← meta.["info"] >.["url"];
     d ← meta.["info"] >.["short-desc"];
     v ← meta.["info"] >.["vcs"];
     Ok (mkMetaInfo u d v))
    (λ k, DppTaxonomyInitError k "Defect").

Definition _load_defects (meta : json) : M self_state unit :=
  i ← lift_res (_load_defects_value meta);
  o ← on_fst (new i);
  modify (λ st, (st.1, set_info o st.2)).

Definition _load : M self_state unit :=
  path ← gets (λ st, _path st.2);
  meta ← on_fst (open_json_load (path +:+ "/meta.json"));
  _load_info meta;;
  _load_common meta;;
  _load_defects meta.

Definition info : M self_state (option (obj MetaInfo)) :=
  i ← gets (λ st, _info st.2);
  (if i is None then _load else mret tt);;
  gets (λ st, _info st.2).

Definition common : M self_state (option (obj Common)) :=
  c ← gets (λ st, _common st.2);
  (if c is None then _load else mret tt);;
  gets (λ st, _common st.2).

Definition defects : M self_state (obj (list (obj Defect))) :=
  d ← gets (λ st, _defects st.2);
  (if oval d is [] then _load else mret tt);;
  gets (λ st, _defects st.2).

End Loader.

(** ** taxonomy/__init__.py: Taxonomy *)

Record Taxonomy : Type := mkTaxonomy {
  base : string;
  store : gmap string MetaData
}.

(** The state of a method of [Taxonomy]: the world and [self]. *)
Abbreviation registry_state := (World * Taxonomy)%type.

(** [dict(pairs)]: of two pairs with one key, the later one stays. *)
Definition dict_of_pairs {V} (pairs : list (string * V)) : gmap string V :=
  foldl (λ d kv, <[kv.1 := kv.2]> d) ∅ pairs.

(** [Taxonomy.__init__].  [dir] is [dirname(__file__)] and [modules] the
    names that [iter_modules([dir])] yields. *)
Definition Taxonomy_init (dir : string) (modules : list string) : M World Taxonomy :=
  pairs ← for_each (λ name,
             md ← MetaData_init name (join dir [name]);
             mret (name, md)) modules;
  mret (mkTaxonomy dir (dict_of_pairs pairs)).

Definition _keytransform (key : string) : M registry_state string :=
  dir ← gets (λ st, base st.2);
  found ← on_fst (exists_ (join dir [key; "meta.json"]));
  if found : bool then mret key
  else raise (AssertionError ("Taxonomy '" +:+ key +:+ "' does not exist")).

Definition __getitem__ (key : string) : M registry_state MetaData :=
  d ← gets (λ st, store st.2);
  k ← _keytransform key;
  match d !! k with
  | Some md => mret md
  | None => raise (KeyError k)
  end.

Definition __setitem__ (key : string) (value : MetaData) : M registry_state unit :=
  raise (RuntimeError "set operator is not allowed").

Definition __delitem__ (key : string) : M registry_state unit :=
  raise (RuntimeError "del operator is not allowed").

Definition __len__ : M registry_state nat :=
  gets (λ st, size (store st.2)).

(** ** processor/build.py *)

Module Build.

(** The namespace returned by the argument parser. *)
Record Args : Type := mkArgs {
  path : string;
  coverage : bool;
  verbose : bool
}.

(** [BuildCommandScript(command)]: the hooks [before], [output] and
    [after] do nothing; the object keeps the command it wraps. *)
Record BuildCommandScript : Type := mkBuildCommandScript {
  script : list string
}.

Record DockerExecInfo (Worktree : Type) : Type := mkDockerExecInfo {
  metadata : MetaData;
  worktree : Worktree;
  commands : list BuildCommandScript;
  stream : bool
}.
Arguments mkDockerExecInfo {Worktree} metadata worktree commands stream.
Arguments metadata {Worktree} d.
Arguments worktree {Worktree} d.
Arguments commands {Worktree} d.
Arguments stream {Worktree} d.

(** Calls a method of [self] from code that holds [self]; the value comes
    back with [self] as the method left it. *)
Definition call {A} (self : MetaData) (m : M self_state A) : M World (A * MetaData) :=
  λ w,
    match m (w, self) with
    | (Ok a, (w', self')) => (Ok (a, self'), w')
    | (Raise e, (w', _)) => (Raise e, w')
    end.

Section Run.

Variable DPP_MAKE_JOB : string.
Variable format_str_04 : string → Res string.

(** The collaborators of [processor.core.argparser], outside the
    sources: the parser built by [create_common_project_parser] and
    [read_config]. *)
Variable Worktree : Type.
Variable parse_args : list string → Res Args.
Variable read_config : string → M World (MetaData * Worktree).

(** [BuildCommand.run]. *)
Definition run (argv : list string) : M World (DockerExecInfo Worktree) :=
  args ← lift_res (parse_args argv);
  '(metadata, worktree) ← read_config (path args);
  '(c, metadata) ← call metadata (common DPP_MAKE_JOB format_str_04);
  match c with
  | None => raise AttributeError
  | Some c =>
      let commands :=
        if coverage args
        then [mkBuildCommandScript (build_coverage_command (oval c))]
        else [mkBuildCommandScript (build_command (oval c))] in
      let stream := if verbose args then true else false in
      mret (mkDockerExecInfo metadata worktree commands stream)
  end.

Definition help : string := "Build local with a build tool from docker".

End Run.

End Build.

(** ** Vocabulary of the statements *)

(** The descriptor file of a [MetaData]. *)
Definition meta_json (self : MetaData) : string := _path self +:+ "/meta.json".

(** The objects built from a list of values when the counter stands at [n]. *)
Fixpoint numbered {A} (n : nat) (l : list A) : list (obj A) :=
  match l with
  | [] => []
  | v :: l' => Obj n v :: numbered (S n) l'
  end.

(** No lazy field holds a loaded value. *)
Definition unloaded (self : MetaData) : Prop :=
  _info self = None ∧ _common self = None ∧ oval (_defects self) = [].

(** The three lazy fields hold the given values. *)
Definition loaded_with (ds : list Defect) (c : Common) (i : MetaInfo)
    (self : MetaData) : Prop :=
  oval <$> oval (_defects self) = ds ∧
  oval <$> _common self = Some c ∧
  oval <$> _info self = Some i.

(** Every identity held by a lazy field was handed out before the counter
    reached [n]. *)
Definition ids_below (n : nat) (self : MetaData) : Prop :=
  oid (_defects self) < n ∧
  (∀ o, _common self = Some o → oid o < n) ∧
  (∀ o, _info self = Some o → oid o < n).

Inductive lazy_field : Type := FInfo | FCommon | FDefects.

Inductive lazy_value : Type :=
| VInfo (v : option (obj MetaInfo))
| VCommon (v : option (obj Common))
| VDefects (v : obj (list (obj Defect))).

(** What a lazy field holds at the moment. *)
Definition cached (f : lazy_field) (self : MetaData) : lazy_value :=
  match f with
  | FInfo => VInfo (_info self)
  | FCommon => VCommon (_common self)
  | FDefects => VDefects (_defects self)
  end.

(** Reading one of the three properties. *)
Definition access (job : string) (fmt : string → Res string) (f : lazy_field)
    : M self_state lazy_value :=
  match f with
  | FInfo => v ← info job fmt; mret (VInfo v)
  | FCommon => v ← common job fmt; mret (VCommon v)
  | FDefects => v ← defects job fmt; mret (VDefects v)
  end.

(** The world once the file [p] has been opened. *)
Definition after_open (p : string) (w : World) : World :=
  mkWorld (fs w) (p :: opened w) (next_id w).

(** ** Definitions that follow the words of the specification *)

(** "n zero-padded to 4 digits": zeros are put before the decimal digits of
    [n] until there are four characters. *)
Definition zero_padded_4 (n : Z) : string :=
  let digits := decimal (Z.to_N n) in
  String.concat "" (replicate (4 - String.length digits) "0") +:+ digits.

(** "a command token equal to the reserved marker is replaced": the token is
    exchanged as a whole, any other token is kept. *)
Definition substitute_equal_token (job token : string) : string :=
  if String.eqb token "@DPP_MAKE_JOB@" then job else token.

(** [needle] is a substring of [s]. *)
Definition occurs (needle s : string) : Prop :=
  ∃ pre post, s = pre +:+ needle +:+ post.

(** ** Descriptors used as concrete inputs *)

Module Sample.

Definition command_of (tokens : list string) : json :=
  JObj [("command", JArr (JStr <$> tokens))].

Definition info_section : json :=
  JObj [("url", JStr "https://example.org/p.git");
        ("short-desc", JStr "sample project");
        ("vcs", JStr "git")].

Definition common_section : json :=
  JObj [("build", command_of ["make"; "-j@DPP_MAKE_JOB@"]);
        ("build-coverage", command_of ["make"; "coverage"]);
        ("test-type", JStr "ctest");
        ("test", command_of ["ctest"]);
        ("test-coverage", command_of ["ctest"; "-T"; "Coverage"]);
        ("gcov", JObj [("exclude", JArr [JStr "test"]);
                       ("command", JStr "gcov")])].

Definition defect (n : Z) : json :=
  JObj [("hash", JStr "0123abc"); ("patch", JInt n); ("cases", JInt 7)].

Definition descriptor : json :=
  JObj [("info", info_section);
        ("common", common_section);
        ("defects", JArr [defect 3; defect 15])].

(** [descriptor] with [common.test-type] left out. *)
Definition descriptor_without_test_type : json :=
  JObj [("info", info_section);
        ("common",
         JObj [("build", command_of ["make"; "-j@DPP_MAKE_JOB@"]);
               ("build-coverage", command_of ["make"; "coverage"]);
               ("test", command_of ["ctest"]);
               ("test-coverage", command_of ["ctest"; "-T"; "Coverage"]);
               ("gcov", JObj [("exclude", JArr [JStr "test"]);
                              ("command", JStr "gcov")])]);
        ("defects", JArr [defect 3; defect 15])].

(** [descriptor] with [info.url] left out. *)
Definition descriptor_without_url : json :=
  JObj [("info", JObj [("short-desc", JStr "sample project");
                       ("vcs", JStr "git")]);
        ("common", common_section);
        ("defects", JArr [defect 3; defect 15])].

(** [descriptor] with the [hash] of its only defect left out. *)
Definition descriptor_without_hash : json :=
  JObj [("info", info_section);
        ("common", common_section);
        ("defects", JArr [JObj [("patch", JInt 3); ("cases", JInt 7)]])].

(** [descriptor] with a test type that [to_enum] does not know. *)
Definition descriptor_with_catch2 : json :=
  JObj [("info", info_section);
        ("common",
         JObj [("build", command_of ["make"; "-j@DPP_MAKE_JOB@"]);
               ("build-coverage", command_of ["make"; "coverage"]);
               ("test-type", JStr "catch2");
               ("test", command_of ["ctest"]);
               ("test-coverage", command_of ["ctest"; "-T"; "Coverage"]);
               ("gcov", JObj [("exclude", JArr [JStr "test"]);
                              ("command", JStr "gcov")])]);
        ("defects", JArr [defect 3; defect 15])].

(** [descriptor] with an empty list of defects. *)
Definition descriptor_without_defects : json :=
  JObj [("info", info_section);
        ("common", common_section);
        ("defects", JArr [])].

(** An interpreter that rejects a zero-padded width for strings. *)
Definition format_str_04 (s : string) : Res string := Raise ValueError.

Definition DPP_MAKE_JOB : string := "8".

(** A freshly constructed [MetaData] for the project [p] under [/t], and
    a world in which its descriptor file holds [doc]. *)
Definition self0 : MetaData := mkMetaData "p" "/t/p" None None (Obj 0 []).

Definition world_with (doc : json) : World :=
  mkWorld {[ "/t/p/meta.json" := Document doc ]} [] 1.

Definition registry : Taxonomy := mkTaxonomy "/t" {[ "p" := self0 ]}.

(** Stand-ins for the collaborators of [BuildCommand.run]: a parser that
    looks for the two flags, and a [read_config] that resolves every
    directory to [self0] and gives the directory back as the work tree. *)
Definition parse_args (argv : list string) : Res Build.Args :=
  Ok (Build.mkArgs "/work"
        (bool_decide ("--coverage" ∈ argv))
        (bool_decide ("--verbose" ∈ argv))).

Definition read_config (dir : string) : M World (MetaData * string) :=
  mret (self0, dir).

End Sample.

(** ** Vocabulary of the further properties *)

(** The number that a run of decimal digits denotes, leading zeros allowed;
    [None] when a character is not a digit. *)
Definition digits_value (s : string) : option N :=
  N.of_uint <$> NilEmpty.uint_of_string s.

(** The spelling of a test type in a descriptor. *)
Definition TestType_name (t : TestType) : string :=
  match t with
  | Automake => "automake"
  | CTest => "ctest"
  | GoogleTest => "gtest"
  end.

(** The character [c] is one of the characters of [s]. *)
Fixpoint has_char (c : ascii) (s : string) : bool :=
  match s with
  | EmptyString => false
  | String a s' => if ascii_dec a c then true else has_char c s'
  end.

(** The lazy field [f] holds no loaded value. *)
Definition field_unloaded (f : lazy_field) (self : MetaData) : Prop :=
  match f with
  | FInfo => _info self = None
  | FCommon => _common self = None
  | FDefects => oval (_defects self) = []
  end.

(** The lazy field [f] holds the value that the loader builds for it from
    the document [meta]. *)
Definition field_built_from (job : string) (fmt : string → Res string)
    (meta : json) (f : lazy_field) (self : MetaData) : Prop :=
  match f with
  | FInfo =>
      ∃ o, _info self = Some o ∧ _load_defects_value meta = Ok (oval o)
  | FCommon =>
      ∃ o, _common self = Some o ∧ _load_common_value job meta = Ok (oval o)
  | FDefects =>
      _load_info_value fmt (_path self) meta = Ok (oval <$> oval (_defects self))
  end.

(** No piece contains the character [@], and there is at least one piece. *)
Definition marker_free_pieces (pieces : list string) : Prop :=
  pieces ≠ [] ∧ Forall (λ piece, has_char "@" piece = false) pieces.

(** * Proofs *)

(** ** The monads *)

Ltac unfold_monad :=
  unfold mbind, M_bind, Res_bind, mret, M_ret, Res_ret, fmap, Res_fmap,
    lift_res, gets, modify, raise, on_fst in *.

Lemma for_each_new {A} (l : list A) (w : World) :
  for_each new l w =
    (Ok (numbered (next_id w) l),
     mkWorld (fs w) (opened w) (next_id w + length l)).
Proof.
  revert w. induction l as [|v l IH]; intros w.
  - simpl. unfold mret, M_ret. destruct w; simpl.
    rewrite Nat.add_0_r. reflexivity.
  - simpl. unfold mbind, M_bind, new at 1. rewrite IH. simpl.
    unfold mret, M_ret. do 2 f_equal. lia.
Qed.

Lemma numbered_values {A} (n : nat) (l : list A) : oval <$> numbered n l = l.
Proof.
  revert n. induction l as [|v l IH]; intros n; simpl; [reflexivity|].
  f_equal. apply IH.
Qed.

(** ** The loader, stage by stage *)

Section LoaderFacts.

Variable job : string.
Variable fmt : string → Res string.

(** [_load] read as a decision tree: which stage fails decides what has
    been assigned. *)
Lemma _load_cases (w : World) (self : MetaData) :
  _load job fmt (w, self) =
    match fs w !! meta_json self with
    | None => (Raise (FileNotFoundError (meta_json self)), (w, self))
    | Some Directory => (Raise (IsADirectoryError (meta_json self)), (w, self))
    | Some Undecodable => (Raise JSONDecodeError, (after_open (meta_json self) w, self))
    | Some (Document meta) =>
        let log := meta_json self :: opened w in
        let n := next_id w in
        match _load_info_value fmt (_path self) meta with
        | Raise e => (Raise e, (mkWorld (fs w) log n, self))
        | Ok ds =>
            let k := n + length ds in
            let self1 := set_defects (Obj k (numbered n ds)) self in
            match _load_common_value job meta with
            | Raise e => (Raise e, (mkWorld (fs w) log (S k), self1))
            | Ok c =>
                let self2 := set_common (Obj (S k) c) self1 in
                match _load_defects_value meta with
                | Raise e => (Raise e, (mkWorld (fs w) log (S (S k)), self2))
                | Ok i =>
                    (Ok tt, (mkWorld (fs w) log (S (S (S k))),
                             set_info (Obj (S (S k)) i) self2))
                end
            end
        end
    end.
Proof.
  unfold _load, open_json_load, meta_json, after_open. unfold_monad. simpl.
  destruct (fs w !! (_path self +:+ "/meta.json")) as [[| |meta]|];
    try reflexivity.
  simpl. unfold _load_info. unfold_monad. simpl.
  destruct (_load_info_value fmt (_path self) meta) as [ds|e]; [|reflexivity].
  rewrite for_each_new. simpl.
  unfold _load_common. unfold_monad. simpl.
  destruct (_load_common_value job meta) as [c|e]; [|reflexivity].
  simpl. unfold _load_defects. unfold_monad. simpl.
  destruct (_load_defects_value meta) as [i|e]; reflexivity.
Qed.

(** A load that raises never assigns [_info], and touches neither the
    path nor the files. *)
Lemma _load_raise (w : World) (self : MetaData) (e : exn) (st : self_state) :
  _load job fmt (w, self) = (Raise e, st) →
  _info st.2 = _info self ∧ _path st.2 = _path self ∧ fs st.1 = fs w.
Proof.
  rewrite _load_cases.
  destruct (fs w !! meta_json self) as [[| |meta]|]; simpl;
    try (intros [= _ <-]; done).
  destruct (_load_info_value fmt (_path self) meta);
    [|intros [= _ <-]; done].
  destruct (_load_common_value job meta); [|intros [= _ <-]; done].
  destruct (_load_defects_value meta); [discriminate|intros [= _ <-]; done].
Qed.

(** A load of a descriptor whose three sections are accepted. *)
Lemma _load_ok (w : World) (self : MetaData) (meta : json)
    (ds : list Defect) (c : Common) (i : MetaInfo) :
  fs w !! meta_json self = Some (Document meta) →
  _load_info_value fmt (_path self) meta = Ok ds →
  _load_common_value job meta = Ok c →
  _load_defects_value meta = Ok i →
  let k := next_id w + length ds in
  _load job fmt (w, self) =
    (Ok tt,
     (mkWorld (fs w) (meta_json self :: opened w) (S (S (S k))),
      mkMetaData (name self) (_path self)
        (Some (Obj (S (S k)) i)) (Some (Obj (S k) c))
        (Obj k (numbered (next_id w) ds)))).
Proof.
  intros Hf Hd Hc Hi. rewrite _load_cases, Hf. simpl.
  rewrite Hd, Hc, Hi. reflexivity.
Qed.

(** An access that raises has gone through [_load]. *)
Lemma access_raise (f : lazy_field) (st : self_state) (e : exn) (st' : self_state) :
  access job fmt f st = (Raise e, st') → _load job fmt st = (Raise e, st').
Proof.
  destruct st as [w self].
  destruct f; unfold access, info, common, defects; unfold_monad; simpl.
  - destruct (_info self); simpl; [discriminate|].
    destruct (_load job fmt (w, self)) as [[[]|e'] st1]; simpl; congruence.
  - destruct (_common self); simpl; [discriminate|].
    destruct (_load job fmt (w, self)) as [[[]|e'] st1]; simpl; congruence.
  - destruct (oval (_defects self)); simpl; [|discriminate].
    destruct (_load job fmt (w, self)) as [[[]|e'] st1]; simpl; congruence.
Qed.

(** An access of a field that is held is answered from the cache. *)
Lemma access_cached (f : lazy_field) (w : World) (self : MetaData) :
  is_Some (_info self) → is_Some (_common self) → oval (_defects self) ≠ [] →
  access job fmt f (w, self) = (Ok (cached f self), (w, self)).
Proof.
  intros [i Hi] [c Hc] Hd.
  destruct f; unfold access, info, common, defects; unfold_monad; simpl.
  - rewrite Hi. simpl. by rewrite Hi.
  - rewrite Hc. simpl. by rewrite Hc.
  - destruct (oval (_defects self)); [done|reflexivity].
Qed.

(** An access of an unloaded object loads it. *)
Lemma access_unloaded (f : lazy_field) (w : World) (self : MetaData) :
  unloaded self →
  access job fmt f (w, self) =
    match _load job fmt (w, self) with
    | (Ok _, st) => (Ok (cached f st.2), st)
    | (Raise e, st) => (Raise e, st)
    end.
Proof.
  intros (Hi & Hc & Hd).
  destruct f; unfold access, info, common, defects; unfold_monad; simpl.
  - rewrite Hi.
    destruct (_load job fmt (w, self)) as [[[]|e'] st1]; reflexivity.
  - rewrite Hc.
    destruct (_load job fmt (w, self)) as [[[]|e'] st1]; reflexivity.
  - rewrite Hd.
    destruct (_load job fmt (w, self)) as [[[]|e'] st1]; reflexivity.
Qed.

End LoaderFacts.

(** ** Failure of a load (C1) *)

Import Sample.

(** C1, counterexample: with [common.test-type] left out, the first access
    of [info] raises although [_load_info] has already assigned the list of
    defects; the object is not left in its unloaded state. *)
Lemma failed_load_keeps_defects :
  ¬ (∀ (job : string) (fmt : string → Res string) (f : lazy_field)
       (w : World) (self : MetaData) (e : exn) (st : self_state),
       unloaded self →
       access job fmt f (w, self) = (Raise e, st) →
       unloaded st.2).
Proof.
  intros H.
  pose (out := access DPP_MAKE_JOB format_str_04 FInfo
                 (world_with descriptor_without_test_type, self0)).
  assert (E : out = (Raise (DppTaxonomyInitError "test-type" "Common"), out.2))
    by (vm_compute; reflexivity).
  apply H in E; [|done].
  destruct E as (_ & _ & Hd). vm_compute in Hd. discriminate.
Qed.

(** An access of a field that is not held goes through [_load]. *)
Lemma access_of_unloaded_field
    (job : string) (fmt : string → Res string) (f : lazy_field)
    (w : World) (self : MetaData) :
  field_unloaded f self →
  access job fmt f (w, self) =
    match _load job fmt (w, self) with
    | (Ok _, st) => (Ok (cached f st.2), st)
    | (Raise e, st) => (Raise e, st)
    end.
Proof.
  destruct f; unfold field_unloaded, access, info, common, defects;
    unfold_monad; simpl; intros ->;
    destruct (_load job fmt (w, self)) as [[[]|e'] st1]; reflexivity.
Qed.

(** C1, amended: when the first access of a lazy field raises, nothing is
    rolled back.  Every lazy field is then either still unloaded or holds
    the value that the failed load built for it from the descriptor, and at
    least one field is still unloaded.  The object stays reloadable: once
    the descriptor has been corrected, an access of any field that is still
    unloaded reads the file again and leaves all three fields populated
    from the corrected document. *)
Theorem failed_load_not_rolled_back
    (job : string) (fmt : string → Res string) (f : lazy_field)
    (w : World) (self : MetaData) (e : exn) (st1 : self_state) :
  unloaded self →
  access job fmt f (w, self) = (Raise e, st1) →
  (∀ g : lazy_field,
     field_unloaded g st1.2 ∨
     ∃ meta : json,
       fs w !! meta_json self = Some (Document meta) ∧
       field_built_from job fmt meta g st1.2) ∧
  (∃ g : lazy_field, field_unloaded g st1.2) ∧
  (∀ (g : lazy_field) (doc : json) (ds : list Defect) (c : Common) (i : MetaInfo),
     field_unloaded g st1.2 →
     _load_info_value fmt (_path self) doc = Ok ds →
     _load_common_value job doc = Ok c →
     _load_defects_value doc = Ok i →
     ∃ st2 : self_state,
       access job fmt g (write_file (meta_json self) (Document doc) st1.1, st1.2)
         = (Ok (cached g st2.2), st2) ∧
       loaded_with ds c i st2.2 ∧
       opened st2.1 = meta_json self :: opened st1.1).
Proof.
  intros (Hi & Hc & Hd) Hacc.
  apply access_raise in Hacc.
  pose proof (_load_raise _ _ _ _ _ _ Hacc) as (_ & Hpath & _).
  split; [|split].
  - rewrite _load_cases in Hacc.
    destruct (fs w !! meta_json self) as [[| |meta]|];
      try (injection Hacc as _ <-; intros []; left; assumption).
    simpl in Hacc.
    destruct (_load_info_value fmt (_path self) meta) as [ds|] eqn:Eds;
      [|injection Hacc as _ <-; intros []; left; assumption].
    destruct (_load_common_value job meta) as [c|] eqn:Ec.
    + destruct (_load_defects_value meta) as [i|] eqn:Ei; [discriminate|].
      injection Hacc as _ <-. intros []; simpl.
      * left. exact Hi.
      * right. exists meta. split; [reflexivity|]. eexists. by split.
      * right. exists meta. split; [reflexivity|]. simpl.
        by rewrite numbered_values.
    + injection Hacc as _ <-. intros []; simpl.
      * left. exact Hi.
      * left. exact Hc.
      * right. exists meta. split; [reflexivity|]. simpl.
        by rewrite numbered_values.
  - exists FInfo. simpl.
    destruct (_load_raise _ _ _ _ _ _ Hacc) as (Hi1 & _). congruence.
  - intros g doc ds c i Hg Hds Hcs His.
    destruct st1 as [w1 self1]; simpl in *.
    assert (Hm : meta_json self1 = meta_json self)
      by (unfold meta_json; by rewrite Hpath).
    rewrite (access_of_unloaded_field _ _ _ _ _ Hg).
    erewrite _load_ok; cycle 1.
    + rewrite Hm. simpl. apply lookup_insert_eq.
    + rewrite Hpath. exact Hds.
    + exact Hcs.
    + exact His.
    + simpl. eexists (_, mkMetaData _ _ _ _ _).
      split; [destruct g; reflexivity|]. simpl. rewrite Hm.
      split; [|reflexivity].
      unfold loaded_with; simpl. by rewrite numbered_values.
Qed.

Lemma failed_load_not_rolled_back_witness :
  let st1 := (access DPP_MAKE_JOB format_str_04 FCommon
                (world_with descriptor_without_test_type, self0)).2 in
  (∀ g : lazy_field,
     field_unloaded g st1.2 ∨
     ∃ meta : json,
       fs (world_with descriptor_without_test_type) !! meta_json self0
         = Some (Document meta) ∧
       field_built_from DPP_MAKE_JOB format_str_04 meta g st1.2) ∧
  (∃ g : lazy_field, field_unloaded g st1.2) ∧
  (∀ (g : lazy_field) (doc : json) (ds : list Defect) (c : Common) (i : MetaInfo),
     field_unloaded g st1.2 →
     _load_info_value format_str_04 (_path self0) doc = Ok ds →
     _load_common_value DPP_MAKE_JOB doc = Ok c →
     _load_defects_value doc = Ok i →
     ∃ st2 : self_state,
       access DPP_MAKE_JOB format_str_04 g
           (write_file (meta_json self0) (Document doc) st1.1, st1.2)
         = (Ok (cached g st2.2), st2) ∧
       loaded_with ds c i st2.2 ∧
       opened st2.1 = meta_json self0 :: opened st1.1).
Proof.
  apply (failed_load_not_rolled_back DPP_MAKE_JOB format_str_04 FCommon
           (world_with descriptor_without_test_type) self0
           (DppTaxonomyInitError "test-type" "Common")).
  - repeat split; reflexivity.
  - vm_compute; reflexivity.
Defined.

(** ** Caching (C3, C10) *)

(** C3, counterexample: a descriptor whose list of defects is empty loads
    without error, yet the next access of [defects] opens the file again. *)
Lemma empty_defects_read_twice :
  ¬ (∀ (job : string) (fmt : string → Res string) (f : lazy_field)
       (w : World) (self : MetaData)
       (doc : json) (ds : list Defect) (c : Common) (i : MetaInfo),
       unloaded self →
       fs w !! meta_json self = Some (Document doc) →
       _load_info_value fmt (_path self) doc = Ok ds →
       _load_common_value job doc = Ok c →
       _load_defects_value doc = Ok i →
       ∃ st1 : self_state,
         access job fmt f (w, self) = (Ok (cached f st1.2), st1) ∧
         loaded_with ds c i st1.2 ∧
         opened st1.1 = meta_json self :: opened w ∧
         ∀ g, access job fmt g st1 = (Ok (cached g st1.2), st1)).
Proof.
  intros H.
  destruct (H DPP_MAKE_JOB format_str_04 FDefects
              (world_with descriptor_without_defects) self0
              descriptor_without_defects [] _ _
              ltac:(repeat split; reflexivity)
              eq_refl eq_refl eq_refl eq_refl)
    as (st1 & Hacc & _ & _ & Hagain).
  specialize (Hagain FDefects).
  vm_compute in Hacc. injection Hacc as _ <-.
  vm_compute in Hagain. discriminate.
Qed.

(** C3, amended: for a descriptor that loads without error and lists at
    least one defect, the first access of any of the three fields opens the
    file once and populates all three; from then on every access of any of
    them returns what is cached and changes nothing, the log of opened files
    included. *)
Theorem load_once
    (job : string) (fmt : string → Res string) (f : lazy_field)
    (w : World) (self : MetaData)
    (doc : json) (ds : list Defect) (c : Common) (i : MetaInfo) :
  unloaded self →
  fs w !! meta_json self = Some (Document doc) →
  _load_info_value fmt (_path self) doc = Ok ds →
  ds ≠ [] →
  _load_common_value job doc = Ok c →
  _load_defects_value doc = Ok i →
  ∃ st1 : self_state,
    access job fmt f (w, self) = (Ok (cached f st1.2), st1) ∧
    loaded_with ds c i st1.2 ∧
    opened st1.1 = meta_json self :: opened w ∧
    ∀ g, access job fmt g st1 = (Ok (cached g st1.2), st1).
Proof.
  intros Hun Hf Hd Hne Hc Hi.
  rewrite (access_unloaded _ _ _ _ _ Hun).
  rewrite (_load_ok _ _ _ _ _ _ _ _ Hf Hd Hc Hi). simpl.
  eexists (_, mkMetaData _ _ _ _ _). split; [destruct f; reflexivity|]. simpl.
  split; [|split; [reflexivity|]].
  - unfold loaded_with; simpl. by rewrite numbered_values.
  - intros g. apply access_cached; simpl; [by eexists|by eexists|].
    destruct ds; [done|discriminate].
Qed.

Lemma load_once_witness :
  ∃ st1 : self_state,
    access DPP_MAKE_JOB format_str_04 FCommon (world_with descriptor, self0)
      = (Ok (cached FCommon st1.2), st1) ∧
    loaded_with
      [mkDefect (JStr "0123abc") "/t/p/patch/0003-buggy.patch"
         "/t/p/patch/0003-split.patch" (JInt 7);
       mkDefect (JStr "0123abc") "/t/p/patch/0015-buggy.patch"
         "/t/p/patch/0015-split.patch" (JInt 7)]
      (mkCommon ["make"; "-j8"] ["make"; "coverage"] (Some CTest) ["ctest"]
         ["ctest"; "-T"; "Coverage"] (mkGcov [JStr "test"] (JStr "gcov")))
      (mkMetaInfo (JStr "https://example.org/p.git") (JStr "sample project")
         (JStr "git"))
      st1.2 ∧
    opened st1.1 = meta_json self0 :: opened (world_with descriptor) ∧
    ∀ g, access DPP_MAKE_JOB format_str_04 g st1 = (Ok (cached g st1.2), st1).
Proof.
  apply (load_once DPP_MAKE_JOB format_str_04 FCommon
           (world_with descriptor) self0 descriptor).
  - repeat split; reflexivity.
  - vm_compute; reflexivity.
  - vm_compute; reflexivity.
  - discriminate.
  - vm_compute; reflexivity.
  - vm_compute; reflexivity.
Defined.

(** C10: while the descriptor lists no defect, an access of [defects] opens
    and parses the file and assigns three objects that did not exist before;
    the list it returns is empty again, so the next access does the same. *)
Theorem empty_defects_never_cached
    (job : string) (fmt : string → Res string)
    (w : World) (self : MetaData) (doc : json) (c : Common) (i : MetaInfo) :
  oval (_defects self) = [] →
  ids_below (next_id w) self →
  fs w !! meta_json self = Some (Document doc) →
  _load_info_value fmt (_path self) doc = Ok [] →
  _load_common_value job doc = Ok c →
  _load_defects_value doc = Ok i →
  ∃ (d : obj (list (obj Defect))) (oc : obj Common) (oi : obj MetaInfo)
    (w' : World) (self' : MetaData),
    defects job fmt (w, self) = (Ok d, (w', self')) ∧
    opened w' = meta_json self :: opened w ∧
    (_defects self' = d ∧ _common self' = Some oc ∧ _info self' = Some oi) ∧
    (oval d = [] ∧ oval oc = c ∧ oval oi = i) ∧
    (oid d ≠ oid (_defects self) ∧
     (∀ o, _common self = Some o → oid oc ≠ oid o) ∧
     (∀ o, _info self = Some o → oid oi ≠ oid o)) ∧
    (ids_below (next_id w') self' ∧ fs w' = fs w ∧ meta_json self' = meta_json self).
Proof.
  intros He (Hbd & Hbc & Hbi) Hf Hd Hc Hi.
  unfold defects. unfold_monad. simpl. rewrite He.
  rewrite (_load_ok _ _ _ _ _ _ _ _ Hf Hd Hc Hi). simpl.
  do 5 eexists. split; [reflexivity|]. simpl.
  split; [reflexivity|].
  split; [repeat split; reflexivity|]. split; [repeat split; reflexivity|].
  simpl. split; [|split; [|done]].
  - split; [lia|]. split; intros o Ho.
    + specialize (Hbc o Ho). lia.
    + specialize (Hbi o Ho). lia.
  - unfold ids_below; simpl. split; [lia|].
    split; intros o [= <-]; simpl; lia.
Qed.


Lemma empty_defects_never_cached_witness :
  ∃ (d : obj (list (obj Defect))) (oc : obj Common) (oi : obj MetaInfo)
    (w' : World) (self' : MetaData),
    defects DPP_MAKE_JOB format_str_04
      (world_with descriptor_without_defects, self0) = (Ok d, (w', self')) ∧
    opened w' = meta_json self0 :: opened (world_with descriptor_without_defects) ∧
    (_defects self' = d ∧ _common self' = Some oc ∧ _info self' = Some oi) ∧
    (oval d = [] ∧
     oval oc = mkCommon ["make"; "-j8"] ["make"; "coverage"] (Some CTest)
                 ["ctest"] ["ctest"; "-T"; "Coverage"]
                 (mkGcov [JStr "test"] (JStr "gcov")) ∧
     oval oi = mkMetaInfo (JStr "https://example.org/p.git")
                 (JStr "sample project") (JStr "git")) ∧
    (oid d ≠ oid (_defects self0) ∧
     (∀ o, _common self0 = Some o → oid oc ≠ oid o) ∧
     (∀ o, _info self0 = Some o → oid oi ≠ oid o)) ∧
    (ids_below (next_id w') self' ∧
     fs w' = fs (world_with descriptor_without_defects) ∧
     meta_json self' = meta_json self0).
Proof.
  apply (empty_defects_never_cached DPP_MAKE_JOB format_str_04
           (world_with descriptor_without_defects) self0
           descriptor_without_defects).
  - reflexivity.
  - unfold ids_below; simpl. split; [lia|]. split; intros o; discriminate.
  - vm_compute; reflexivity.
  - vm_compute; reflexivity.
  - vm_compute; reflexivity.
  - vm_compute; reflexivity.
Defined.

(** ** Strings *)

Lemma append_cons (a : ascii) (s t : string) :
  String a s +:+ t = String a (s +:+ t).
Proof. reflexivity. Qed.

Lemma append_empty_r (s : string) : s +:+ "" = s.
Proof.
  induction s as [|a s IH]; [reflexivity|]. by rewrite append_cons, IH.
Qed.

Lemma length_append (s1 s2 : string) :
  String.length (s1 +:+ s2) = String.length s1 + String.length s2.
Proof.
  induction s1 as [|a s1 IH]; [reflexivity|].
  rewrite append_cons. simpl. by rewrite IH.
Qed.

Lemma length_zeros (k : nat) : String.length (zeros k) = k.
Proof. induction k as [|k IH]; simpl; [reflexivity|]. by rewrite IH. Qed.

Lemma concat_replicate_zero (k : nat) :
  String.concat "" (replicate k "0") = zeros k.
Proof.
  induction k as [|k IH]; [reflexivity|].
  simpl. destruct (replicate k "0") eqn:E.
  - destruct k; [reflexivity|discriminate].
  - rewrite IH. reflexivity.
Qed.

Lemma prefix_split (a b : string) :
  String.prefix a b = true → ∃ post, b = a +:+ post.
Proof.
  revert b. induction a as [|x a IH]; intros b.
  - intros _. by exists b.
  - destruct b as [|y b]; simpl; [discriminate|].
    destruct (ascii_dec x y) as [->|]; [|discriminate].
    intros [post ->]%IH. by exists post.
Qed.

(** A string in which [old] does not occur is left as it is. *)
Lemma str_replace_absent (old new s : string) :
  ¬ occurs old s → str_replace old new s = s.
Proof.
  unfold str_replace. induction s as [|c s IH]; intros Hno; [reflexivity|].
  cbn [replace_from].
  destruct (String.prefix old (String c s)) eqn:Hp.
  - exfalso. apply Hno. apply prefix_split in Hp as [post Hp].
    exists "", post. exact Hp.
  - f_equal. apply IH. intros (pre & post & ->).
    apply Hno. by exists (String c pre), post.
Qed.

(** ** Decimal rendering and padding (C6) *)

Lemma format_int_04_nonneg (n : Z) :
  (0 ≤ n)%Z → format_int_04 n = zero_padded_4 n.
Proof.
  intros Hn. unfold format_int_04, zero_padded_4.
  destruct (Z.ltb_spec n 0); [lia|].
  rewrite concat_replicate_zero.
  replace (Z.abs_N n) with (Z.to_N n) by (destruct n; [reflexivity..|lia]).
  reflexivity.
Qed.

Lemma decimal_below_10000 (n : Z) :
  (0 ≤ n < 10000)%Z → (String.length (decimal (Z.to_N n)) ≤ 4)%nat.
Proof.
  intros Hn.
  assert (Hall : forallb (λ z, (String.length (decimal (Z.to_N z)) <=? 4)%nat)
                   (seqZ 0 10000) = true) by (vm_compute; reflexivity).
  rewrite forallb_forall in Hall.
  apply Nat.leb_le, Hall, list_elem_of_In, elem_of_seqZ. lia.
Qed.

Lemma zero_padded_4_length (n : Z) :
  (0 ≤ n < 10000)%Z → String.length (zero_padded_4 n) = 4.
Proof.
  intros Hn. pose proof (decimal_below_10000 n Hn) as Hl.
  unfold zero_padded_4. rewrite concat_replicate_zero, length_append, length_zeros.
  lia.
Qed.

Lemma comprehension_lookup {A B} (f : A → Res B) (l : list A) (ys : list B)
    (k : nat) (x : A) :
  comprehension f l = Ok ys → l !! k = Some x →
  ∃ y, ys !! k = Some y ∧ f x = Ok y.
Proof.
  revert ys k. induction l as [|a l IH]; intros ys k; [done|].
  simpl. unfold mbind, Res_bind.
  destruct (f a) as [b|] eqn:Ha; [|discriminate].
  destruct (comprehension f l) as [bs|] eqn:Hl; [|discriminate].
  intros [= <-]. destruct k as [|k]; simpl.
  - intros [= <-]. eauto.
  - intros Hk. eapply IH; eauto.
Qed.

Lemma except_KeyError_ok {A} (m : Res A) (h : string → exn) (a : A) :
  except_KeyError m h = Ok a → m = Ok a.
Proof. destruct m as [|[]]; simpl; congruence. Qed.

(** C6: the defect built from an entry whose patch index is the integer
    [n ≥ 0] has the paths [<path>/patch/NNNN-buggy.patch] and
    [<path>/patch/NNNN-split.patch], [NNNN] being [n] zero-padded to 4 digits
    (exactly four characters as long as [n < 10000]). *)
Theorem patch_paths_zero_padded
    (fmt : string → Res string) (path : string) (meta : json)
    (entries : list json) (ds : list Defect)
    (k : nat) (defect : json) (n : Z) :
  meta.["defects"] = Ok (JArr entries) →
  entries !! k = Some defect →
  defect.["patch"] = Ok (JInt n) →
  (0 ≤ n)%Z →
  _load_info_value fmt path meta = Ok ds →
  ∃ d : Defect,
    ds !! k = Some d ∧
    buggy_patch d = path +:+ "/patch/" +:+ zero_padded_4 n +:+ "-buggy.patch" ∧
    split_patch d = path +:+ "/patch/" +:+ zero_padded_4 n +:+ "-split.patch" ∧
    ((n < 10000)%Z → String.length (zero_padded_4 n) = 4).
Proof.
  intros Hm Hk Hp Hn Hload.
  unfold _load_info_value in Hload. apply except_KeyError_ok in Hload.
  rewrite Hm in Hload. simpl in Hload.
  destruct (comprehension_lookup _ _ _ _ _ Hload Hk) as (d & Hd & Hentry).
  exists d. split; [exact Hd|].
  unfold defect_entry in Hentry. rewrite Hp in Hentry.
  unfold_monad. simpl in Hentry.
  destruct (defect.["hash"]); [|discriminate].
  destruct (defect.["cases"]); [|discriminate].
  injection Hentry as <-. simpl.
  rewrite (format_int_04_nonneg n Hn).
  repeat split. intros Hlt. apply zero_padded_4_length. lia.
Qed.

Lemma patch_paths_zero_padded_witness :
  ∃ d : Defect,
    [mkDefect (JStr "0123abc") "/t/p/patch/0003-buggy.patch"
       "/t/p/patch/0003-split.patch" (JInt 7);
     mkDefect (JStr "0123abc") "/t/p/patch/0015-buggy.patch"
       "/t/p/patch/0015-split.patch" (JInt 7)] !! 1 = Some d ∧
    buggy_patch d = "/t/p" +:+ "/patch/" +:+ zero_padded_4 15 +:+ "-buggy.patch" ∧
    split_patch d = "/t/p" +:+ "/patch/" +:+ zero_padded_4 15 +:+ "-split.patch" ∧
    ((15 < 10000)%Z → String.length (zero_padded_4 15) = 4).
Proof.
  apply (patch_paths_zero_padded Sample.format_str_04 "/t/p" Sample.descriptor
           [Sample.defect 3; Sample.defect 15] _ 1 (Sample.defect 15) 15).
  - reflexivity.
  - reflexivity.
  - reflexivity.
  - lia.
  - vm_compute; reflexivity.
Defined.

(** The two indices named by the specification. *)
Example patch_index_3 :
  defect_entry Sample.format_str_04 "/t/p" (Sample.defect 3) =
    Ok (mkDefect (JStr "0123abc") "/t/p/patch/0003-buggy.patch"
          "/t/p/patch/0003-split.patch" (JInt 7)).
Proof. reflexivity. Qed.

Example patch_index_15 :
  defect_entry Sample.format_str_04 "/t/p" (Sample.defect 15) =
    Ok (mkDefect (JStr "0123abc") "/t/p/patch/0015-buggy.patch"
          "/t/p/patch/0015-split.patch" (JInt 7)).
Proof. reflexivity. Qed.

(** ** Error labels of the loader (C2) *)

(** C2: evaluation of the loader on a descriptor without [info.url], and on
    one whose defect entry has no [hash].  The field left out of the info
    section is reported for the record type [Defect], the field left out of
    the defects entry for [MetaInfo]: [_load_info] builds the defects and
    [_load_defects] builds the info record, each under the label of the
    other. *)
Theorem missing_field_labels_swapped :
  (info DPP_MAKE_JOB format_str_04 (world_with descriptor_without_url, self0)).1
    = Raise (DppTaxonomyInitError "url" "Defect") ∧
  (info DPP_MAKE_JOB format_str_04 (world_with descriptor_without_hash, self0)).1
    = Raise (DppTaxonomyInitError "hash" "MetaInfo") ∧
  (info DPP_MAKE_JOB format_str_04 (world_with descriptor_without_test_type, self0)).1
    = Raise (DppTaxonomyInitError "test-type" "Common").
Proof. repeat split; vm_compute; reflexivity. Qed.

(** ** The registry (C4, C8) *)

(** C4: [__setitem__] and [__delitem__] raise RuntimeError for every key and
    value, in every state of the world and of the registry, and leave that
    state as it was. *)
Theorem registry_rejects_mutation
    (key : string) (value : MetaData) (st : registry_state) :
  __setitem__ key value st = (Raise (RuntimeError "set operator is not allowed"), st) ∧
  __delitem__ key st = (Raise (RuntimeError "del operator is not allowed"), st).
Proof. split; reflexivity. Qed.

(** C8: a lookup whose descriptor file [<base>/<key>/meta.json] is missing
    raises AssertionError with the message naming the key and changes
    nothing (no file is opened, no object is loaded); a lookup that returns
    has found the file, returns the stored [MetaData] and changes nothing
    either. *)
Theorem lookup_checks_descriptor (key : string) (w : World) (tx : Taxonomy) :
  (fs w !! join (base tx) [key; "meta.json"] = None →
   __getitem__ key (w, tx) =
     (Raise (AssertionError ("Taxonomy '" +:+ key +:+ "' does not exist")),
      (w, tx))) ∧
  (∀ (md : MetaData) (st : registry_state),
     __getitem__ key (w, tx) = (Ok md, st) →
     is_Some (fs w !! join (base tx) [key; "meta.json"]) ∧
     store tx !! key = Some md ∧
     st = (w, tx)).
Proof.
  unfold __getitem__, _keytransform, exists_. unfold_monad. simpl.
  split.
  - intros ->. rewrite bool_decide_eq_false_2; [reflexivity|].
    by intros [? ?].
  - intros md st. case_bool_decide as Hfile; simpl; [|discriminate].
    destruct (store tx !! key); [|discriminate].
    intros [= <- <-]. done.
Qed.

Lemma lookup_checks_descriptor_witness :
  __getitem__ "q" (world_with descriptor, registry) =
    (Raise (AssertionError ("Taxonomy '" +:+ "q" +:+ "' does not exist")),
     (world_with descriptor, registry)) ∧
  (is_Some (fs (world_with descriptor) !! join (base registry) ["p"; "meta.json"]) ∧
   store registry !! "p" = Some self0 ∧
   (world_with descriptor, registry) = (world_with descriptor, registry)).
Proof.
  split.
  - apply (proj1 (lookup_checks_descriptor "q" (world_with descriptor) registry)).
    vm_compute; reflexivity.
  - apply (proj2 (lookup_checks_descriptor "p" (world_with descriptor) registry)).
    vm_compute; reflexivity.
Defined.

(** ** The common section (C7, C9) *)

(** What a successful [_load_common_value] says about each argument of
    [Common(...)]. *)
Lemma _load_common_value_ok (job : string) (meta : json) (c : Common) :
  _load_common_value job meta = Ok c →
  meta.["common"] >.["build"] >.["command"] ≫= replace_make_job_flags job
    = Ok (build_command c) ∧
  meta.["common"] >.["build-coverage"] >.["command"] ≫= replace_make_job_flags job
    = Ok (build_coverage_command c) ∧
  to_enum <$> meta.["common"] >.["test-type"] = Ok (test_type c) ∧
  meta.["common"] >.["test"] >.["command"] ≫= replace_make_job_flags job
    = Ok (test_command c) ∧
  meta.["common"] >.["test-coverage"] >.["command"] ≫= replace_make_job_flags job
    = Ok (test_coverage_command c).
Proof.
  intros H%except_KeyError_ok. revert H.
  destruct (meta.["common"] >.["build"] >.["command"] ≫= replace_make_job_flags job)
    as [b|]; [|discriminate].
  destruct (meta.["common"] >.["build-coverage"] >.["command"] ≫= replace_make_job_flags job)
    as [bc|]; [|discriminate].
  destruct (to_enum <$> meta.["common"] >.["test-type"]) as [ty|]; [|discriminate].
  destruct (meta.["common"] >.["test"] >.["command"] ≫= replace_make_job_flags job)
    as [t|]; [|discriminate].
  destruct (meta.["common"] >.["test-coverage"] >.["command"] ≫= replace_make_job_flags job)
    as [tc|]; [|discriminate].
  simpl.
  destruct (meta.["common"] >.["gcov"] >.["exclude"] ≫= iterate); [|discriminate].
  simpl.
  destruct (meta.["common"] >.["gcov"] >.["command"]); [|discriminate].
  simpl. intros [= <-]. done.
Qed.

Lemma replace_make_job_flags_strings (job : string) (tokens : list string) :
  replace_make_job_flags job (JArr (JStr <$> tokens)) =
    Ok (str_replace "@DPP_MAKE_JOB@" job <$> tokens).
Proof.
  unfold replace_make_job_flags.
  change (iterate (JArr (JStr <$> tokens)) ≫= _)
    with (comprehension (method_replace "@DPP_MAKE_JOB@" job) (JStr <$> tokens)).
  induction tokens as [|t tokens IH]; [reflexivity|].
  rewrite !fmap_cons. cbn [comprehension method_replace].
  rewrite IH. reflexivity.
Qed.

(** C9: the three known names map to their members of [TestType]; any other
    string maps to [None] without an exception, and the [Common] record
    built from a descriptor with such a test type carries [None]. *)
Theorem to_enum_unknown_is_none
    (s job : string) (meta : json) (c : Common) :
  s ≠ "automake" → s ≠ "ctest" → s ≠ "gtest" →
  meta.["common"] >.["test-type"] = Ok (JStr s) →
  _load_common_value job meta = Ok c →
  (to_enum (JStr "automake") = Some Automake ∧
   to_enum (JStr "ctest") = Some CTest ∧
   to_enum (JStr "gtest") = Some GoogleTest) ∧
  to_enum (JStr s) = None ∧
  test_type c = None.
Proof.
  intros H1 H2 H3 Hty Hload.
  assert (Hnone : to_enum (JStr s) = None).
  { simpl. by rewrite !(proj2 (String.eqb_neq _ _)). }
  split; [done|]. split; [exact Hnone|].
  apply _load_common_value_ok in Hload as (_ & _ & Hc & _).
  rewrite Hty in Hc.
  change (Ok (to_enum (JStr s)) = Ok (test_type c)) in Hc.
  injection Hc as <-. exact Hnone.
Qed.

Lemma to_enum_unknown_is_none_witness :
  (to_enum (JStr "automake") = Some Automake ∧
   to_enum (JStr "ctest") = Some CTest ∧
   to_enum (JStr "gtest") = Some GoogleTest) ∧
  to_enum (JStr "catch2") = None ∧
  test_type
    (mkCommon ["make"; "-j8"] ["make"; "coverage"] None ["ctest"]
       ["ctest"; "-T"; "Coverage"] (mkGcov [JStr "test"] (JStr "gcov"))) = None.
Proof.
  apply (to_enum_unknown_is_none "catch2" DPP_MAKE_JOB descriptor_with_catch2).
  - discriminate.
  - discriminate.
  - discriminate.
  - reflexivity.
  - vm_compute; reflexivity.
Defined.

(** C7, counterexample: the build command [make -j@DPP_MAKE_JOB@] of the
    sample descriptor comes out as [make -j8]; a token that only contains
    the marker is rewritten too, which exchanging whole tokens would not
    do. *)
Lemma marker_inside_token_replaced :
  ¬ (∀ (job : string) (meta : json) (c : Common) (b bc t tc : list string),
       meta.["common"] >.["build"] >.["command"] = Ok (JArr (JStr <$> b)) →
       meta.["common"] >.["build-coverage"] >.["command"] = Ok (JArr (JStr <$> bc)) →
       meta.["common"] >.["test"] >.["command"] = Ok (JArr (JStr <$> t)) →
       meta.["common"] >.["test-coverage"] >.["command"] = Ok (JArr (JStr <$> tc)) →
       _load_common_value job meta = Ok c →
       build_command c = substitute_equal_token job <$> b ∧
       build_coverage_command c = substitute_equal_token job <$> bc ∧
       test_command c = substitute_equal_token job <$> t ∧
       test_coverage_command c = substitute_equal_token job <$> tc).
Proof.
  intros H.
  destruct (H DPP_MAKE_JOB descriptor _ ["make"; "-j@DPP_MAKE_JOB@"]
              ["make"; "coverage"] ["ctest"] ["ctest"; "-T"; "Coverage"]
              eq_refl eq_refl eq_refl eq_refl eq_refl) as (Hb & _).
  vm_compute in Hb. discriminate.
Qed.

(** ** The build command (C5) *)

(** The [common] property never returns [None]. *)
Lemma common_returns_record
    (job : string) (fmt : string → Res string)
    (st : self_state) (oc : option (obj Common)) (st' : self_state) :
  common job fmt st = (Ok oc, st') → ∃ c, oc = Some c ∧ _common st'.2 = Some c.
Proof.
  destruct st as [w self]. unfold common. unfold_monad. simpl.
  destruct (_common self) as [c|] eqn:Hc; simpl.
  - intros [= <- <-]. simpl. eauto.
  - rewrite _load_cases.
    destruct (fs w !! meta_json self) as [[| |meta]|]; try discriminate.
    simpl.
    destruct (_load_info_value fmt (_path self) meta); [|discriminate].
    destruct (_load_common_value job meta); [|discriminate].
    destruct (_load_defects_value meta); [|discriminate].
    intros [= <- <-]. simpl. eauto.
Qed.

(** C5: once the arguments are parsed, the project is resolved and its
    common section is available, [run] returns a request with exactly one
    script; the script wraps [build_coverage_command] when the coverage
    flag is set and [build_command] otherwise, and the request streams
    exactly when the verbose flag is set. *)
Theorem run_builds_one_script
    (job : string) (fmt : string → Res string) (Worktree : Type)
    (parse_args : list string → Res Build.Args)
    (read_config : string → M World (MetaData * Worktree))
    (argv : list string) (args : Build.Args)
    (w w1 : World) (md : MetaData) (wt : Worktree)
    (oc : option (obj Common)) (st : self_state) :
  parse_args argv = Ok args →
  read_config (Build.path args) w = (Ok (md, wt), w1) →
  common job fmt (w1, md) = (Ok oc, st) →
  ∃ (c : obj Common) (request : Build.DockerExecInfo Worktree),
    oc = Some c ∧
    Build.run job fmt Worktree parse_args read_config argv w = (Ok request, st.1) ∧
    Build.metadata request = st.2 ∧
    Build.worktree request = wt ∧
    Build.commands request =
      [Build.mkBuildCommandScript
         (if Build.coverage args
          then build_coverage_command (oval c)
          else build_command (oval c))] ∧
    (Build.stream request = true ↔ Build.verbose args = true).
Proof.
  intros Hargs Hcfg Hcommon.
  destruct (common_returns_record _ _ _ _ _ Hcommon) as (c & -> & _).
  exists c. unfold Build.run, Build.call. unfold_monad.
  rewrite Hargs, Hcfg, Hcommon. destruct st as [w2 md2]. simpl.
  eexists. split; [reflexivity|]. split; [reflexivity|]. simpl.
  repeat split; try (by destruct (Build.coverage args));
    by destruct (Build.verbose args).
Qed.

Lemma run_builds_one_script_witness :
  ∃ (c : obj Common) (request : Build.DockerExecInfo string),
    Some (Obj 4 (mkCommon ["make"; "-j8"] ["make"; "coverage"] (Some CTest)
                   ["ctest"] ["ctest"; "-T"; "Coverage"]
                   (mkGcov [JStr "test"] (JStr "gcov")))) = Some c ∧
    Build.run DPP_MAKE_JOB format_str_04 string parse_args read_config
        ["--coverage"] (world_with descriptor)
      = (Ok request,
         (common DPP_MAKE_JOB format_str_04 (world_with descriptor, self0)).2.1) ∧
    Build.metadata request =
      (common DPP_MAKE_JOB format_str_04 (world_with descriptor, self0)).2.2 ∧
    Build.worktree request = "/work" ∧
    Build.commands request =
      [Build.mkBuildCommandScript
         (if Build.coverage (Build.mkArgs "/work" true false)
          then build_coverage_command (oval c)
          else build_command (oval c))] ∧
    (Build.stream request = true ↔
     Build.verbose (Build.mkArgs "/work" true false) = true).
Proof.
  apply (run_builds_one_script DPP_MAKE_JOB format_str_04 string
           parse_args read_config ["--coverage"] (Build.mkArgs "/work" true false)
           (world_with descriptor) (world_with descriptor) self0 "/work").
  - vm_compute; reflexivity.
  - reflexivity.
  - vm_compute; reflexivity.
Defined.

(** * Further properties of the loader *)

(** An access either answers from the cache or goes through [_load]. *)
Lemma access_cases
    (job : string) (fmt : string → Res string) (f : lazy_field)
    (w : World) (self : MetaData) :
  access job fmt f (w, self) = (Ok (cached f self), (w, self)) ∨
  access job fmt f (w, self) =
    match _load job fmt (w, self) with
    | (Ok _, st) => (Ok (cached f st.2), st)
    | (Raise e, st) => (Raise e, st)
    end.
Proof.
  destruct f; unfold access, info, common, defects; unfold_monad; simpl.
  - destruct (_info self) as [i|] eqn:Hi; simpl.
    + left. by rewrite Hi.
    + right. destruct (_load job fmt (w, self)) as [[[]|e] st]; reflexivity.
  - destruct (_common self) as [c|] eqn:Hc; simpl.
    + left. by rewrite Hc.
    + right. destruct (_load job fmt (w, self)) as [[[]|e] st]; reflexivity.
  - destruct (oval (_defects self)) eqn:Hd; simpl.
    + right. destruct (_load job fmt (w, self)) as [[[]|e] st]; reflexivity.
    + left. reflexivity.
Qed.

(** What [_load] never touches, whatever its outcome. *)
Lemma _load_frame
    (job : string) (fmt : string → Res string)
    (w : World) (self : MetaData) (r : Res unit) (st : self_state) :
  _load job fmt (w, self) = (r, st) →
  name st.2 = name self ∧ _path st.2 = _path self ∧ fs st.1 = fs w ∧
  (opened st.1 = opened w ∨ opened st.1 = meta_json self :: opened w).
Proof.
  rewrite _load_cases.
  destruct (fs w !! meta_json self) as [[| |meta]|]; simpl;
    try (intros [= _ <-]; simpl; by auto).
  destruct (_load_info_value fmt (_path self) meta);
    [|intros [= _ <-]; simpl; by auto].
  destruct (_load_common_value job meta); [|intros [= _ <-]; simpl; by auto].
  destruct (_load_defects_value meta); intros [= _ <-]; simpl; by auto.
Qed.

(** X1: reading a lazy field changes neither the name nor the path of the
    object nor any file, and opens at most one file, the descriptor of the
    object itself; this holds whether the access returns or raises. *)
Theorem access_frame
    (job : string) (fmt : string → Res string) (f : lazy_field)
    (w : World) (self : MetaData) (r : Res lazy_value) (st : self_state) :
  access job fmt f (w, self) = (r, st) →
  name st.2 = name self ∧ _path st.2 = _path self ∧ fs st.1 = fs w ∧
  (opened st.1 = opened w ∨ opened st.1 = meta_json self :: opened w).
Proof.
  destruct (access_cases job fmt f w self) as [-> | ->].
  - intros [= _ <-]. simpl. by auto.
  - destruct (_load job fmt (w, self)) as [[[]|e] st1] eqn:Hl;
      intros [= _ <-]; eapply _load_frame; exact Hl.
Qed.

Lemma access_frame_witness :
  let st := (access DPP_MAKE_JOB format_str_04 FDefects
               (world_with descriptor_without_url, self0)).2 in
  name st.2 = name self0 ∧ _path st.2 = _path self0 ∧
  fs st.1 = fs (world_with descriptor_without_url) ∧
  (opened st.1 = opened (world_with descriptor_without_url) ∨
   opened st.1 = meta_json self0 :: opened (world_with descriptor_without_url)).
Proof.
  apply (access_frame DPP_MAKE_JOB format_str_04 FDefects
           (world_with descriptor_without_url) self0
           (Raise (DppTaxonomyInitError "url" "Defect"))).
  vm_compute; reflexivity.
Defined.

(** X2: when the descriptor file does not exist, the access of any lazy
    field of an unloaded object raises FileNotFoundError for
    [<path>/meta.json]; nothing is opened and nothing is assigned, so the
    object is as it was before the access. *)
Theorem access_without_descriptor
    (job : string) (fmt : string → Res string) (f : lazy_field)
    (w : World) (self : MetaData) :
  unloaded self →
  fs w !! meta_json self = None →
  access job fmt f (w, self) =
    (Raise (FileNotFoundError (_path self +:+ "/meta.json")), (w, self)).
Proof.
  intros Hun Hf. rewrite (access_unloaded _ _ _ _ _ Hun), _load_cases, Hf.
  reflexivity.
Qed.

Lemma access_without_descriptor_witness :
  access DPP_MAKE_JOB format_str_04 FCommon (mkWorld ∅ [] 1, self0) =
    (Raise (FileNotFoundError (_path self0 +:+ "/meta.json")),
     (mkWorld ∅ [] 1, self0)).
Proof.
  apply (access_without_descriptor DPP_MAKE_JOB format_str_04 FCommon
           (mkWorld ∅ [] 1) self0).
  - repeat split; reflexivity.
  - reflexivity.
Defined.

(** X3: a descriptor whose top level is not an object makes the access of
    any lazy field of an unloaded object raise TypeError: the exception is
    not turned into the loader's own error, the file has been opened, and
    no field is assigned. *)
Theorem access_of_non_object_descriptor
    (job : string) (fmt : string → Res string) (f : lazy_field)
    (w : World) (self : MetaData) (meta : json) :
  unloaded self →
  fs w !! meta_json self = Some (Document meta) →
  (∀ members, meta ≠ JObj members) →
  access job fmt f (w, self) =
    (Raise TypeError, (after_open (meta_json self) w, self)).
Proof.
  intros Hun Hf Hno. rewrite (access_unloaded _ _ _ _ _ Hun), _load_cases, Hf.
  simpl. unfold _load_info_value.
  destruct meta; try reflexivity. by destruct (Hno members).
Qed.

Lemma access_of_non_object_descriptor_witness :
  access DPP_MAKE_JOB format_str_04 FInfo
      (world_with (JArr [descriptor]), self0) =
    (Raise TypeError,
     (after_open (meta_json self0) (world_with (JArr [descriptor])), self0)).
Proof.
  apply (access_of_non_object_descriptor DPP_MAKE_JOB format_str_04 FInfo
           (world_with (JArr [descriptor])) self0 (JArr [descriptor])).
  - repeat split; reflexivity.
  - vm_compute; reflexivity.
  - discriminate.
Defined.

(** X4: when the load of an unloaded object fails in its last stage (the
    info record), the defects and the common record of that load stay
    assigned.  A later access of [common] is then answered from this cache
    in every world: the descriptor is not read again, whatever it holds
    by then. *)
Theorem common_cached_by_failed_load
    (job : string) (fmt : string → Res string) (f : lazy_field)
    (w : World) (self : MetaData) (meta : json)
    (ds : list Defect) (c : Common) (e : exn) :
  unloaded self →
  fs w !! meta_json self = Some (Document meta) →
  _load_info_value fmt (_path self) meta = Ok ds →
  _load_common_value job meta = Ok c →
  _load_defects_value meta = Raise e →
  ∃ (w1 : World) (self1 : MetaData) (oc : obj Common),
    access job fmt f (w, self) = (Raise e, (w1, self1)) ∧
    oval <$> oval (_defects self1) = ds ∧
    _common self1 = Some oc ∧ oval oc = c ∧
    _info self1 = None ∧
    ∀ w2 : World,
      common job fmt (w2, self1) = (Ok (Some oc), (w2, self1)).
Proof.
  intros Hun Hf Hd Hc Hi.
  rewrite (access_unloaded _ _ _ _ _ Hun), _load_cases, Hf. simpl.
  rewrite Hd, Hc, Hi.
  do 3 eexists. split; [reflexivity|]. simpl.
  rewrite numbered_values. destruct Hun as (Hi0 & _ & _).
  split; [reflexivity|]. split; [reflexivity|]. split; [reflexivity|].
  split; [exact Hi0|]. intros w2. reflexivity.
Qed.

Lemma common_cached_by_failed_load_witness :
  ∃ (w1 : World) (self1 : MetaData) (oc : obj Common),
    access DPP_MAKE_JOB format_str_04 FInfo
      (world_with descriptor_without_url, self0)
      = (Raise (DppTaxonomyInitError "url" "Defect"), (w1, self1)) ∧
    oval <$> oval (_defects self1) =
      [mkDefect (JStr "0123abc") "/t/p/patch/0003-buggy.patch"
         "/t/p/patch/0003-split.patch" (JInt 7);
       mkDefect (JStr "0123abc") "/t/p/patch/0015-buggy.patch"
         "/t/p/patch/0015-split.patch" (JInt 7)] ∧
    _common self1 = Some oc ∧
    oval oc = mkCommon ["make"; "-j8"] ["make"; "coverage"] (Some CTest)
                ["ctest"] ["ctest"; "-T"; "Coverage"]
                (mkGcov [JStr "test"] (JStr "gcov")) ∧
    _info self1 = None ∧
    ∀ w2 : World,
      common DPP_MAKE_JOB format_str_04 (w2, self1) = (Ok (Some oc), (w2, self1)).
Proof.
  apply (common_cached_by_failed_load DPP_MAKE_JOB format_str_04 FInfo
           (world_with descriptor_without_url) self0 descriptor_without_url).
  - repeat split; reflexivity.
  - vm_compute; reflexivity.
  - vm_compute; reflexivity.
  - vm_compute; reflexivity.
  - vm_compute; reflexivity.
Defined.

(** * Further properties of the common section *)

(** X5: a common section without [test-type] is reported as the missing
    field [test-type] of the record [Common] as soon as the build and the
    build-coverage commands, which are evaluated first, are accepted;
    what the rest of the section holds or lacks plays no part. *)
Theorem missing_test_type_reported
    (job : string) (meta : json) (section : list (string * json))
    (b bc : list string) :
  meta.["common"] = Ok (JObj section) →
  meta.["common"] >.["build"] >.["command"] ≫= replace_make_job_flags job = Ok b →
  meta.["common"] >.["build-coverage"] >.["command"] ≫= replace_make_job_flags job
    = Ok bc →
  dict_get section "test-type" = None →
  _load_common_value job meta = Raise (DppTaxonomyInitError "test-type" "Common").
Proof.
  intros Hs Hb Hbc Hty. unfold _load_common_value.
  rewrite Hb, Hbc. simpl. unfold subscript_in. rewrite Hs. simpl.
  rewrite Hty. reflexivity.
Qed.

Lemma missing_test_type_reported_witness :
  _load_common_value DPP_MAKE_JOB descriptor_without_test_type =
    Raise (DppTaxonomyInitError "test-type" "Common").
Proof.
  eapply (missing_test_type_reported DPP_MAKE_JOB descriptor_without_test_type).
  - reflexivity.
  - vm_compute; reflexivity.
  - vm_compute; reflexivity.
  - reflexivity.
Defined.

Lemma prefix_cons (a c : ascii) (o s : string) :
  String.prefix (String a o) (String c s) =
    if ascii_dec a c then String.prefix o s else false.
Proof. reflexivity. Qed.

Lemma str_replace_one_char (job : string) (c : ascii) :
  str_replace "@DPP_MAKE_JOB@" job (String c "") = String c "".
Proof.
  unfold str_replace. cbn [replace_from]. rewrite prefix_cons.
  destruct (ascii_dec "@" c); reflexivity.
Qed.

(** X6: a command that the descriptor gives as one string instead of a list
    is accepted without error and becomes the list of the characters of
    that string, one token per character. *)
Theorem command_string_split_into_characters (job s : string) :
  replace_make_job_flags job (JStr s) = Ok (chars s).
Proof.
  unfold replace_make_job_flags.
  change (iterate (JStr s) ≫= _)
    with (comprehension (method_replace "@DPP_MAKE_JOB@" job) (JStr <$> chars s)).
  induction s as [|c s IH]; [reflexivity|].
  cbn [chars]. rewrite fmap_cons. cbn [comprehension method_replace].
  rewrite str_replace_one_char, IH. reflexivity.
Qed.

(** X7: a command list with an element that is not a string (a number, a
    nested list, null ...) raises AttributeError, wherever the element
    stands in the list. *)
Theorem command_with_non_string_token (job : string) (items : list json) (v : json) :
  v ∈ items →
  (∀ s, v ≠ JStr s) →
  replace_make_job_flags job (JArr items) = Raise AttributeError.
Proof.
  intros Hin Hv. unfold replace_make_job_flags.
  change (iterate (JArr items) ≫= _)
    with (comprehension (method_replace "@DPP_MAKE_JOB@" job) items).
  induction items as [|x items IH]; [by apply elem_of_nil in Hin|].
  cbn [comprehension].
  destruct x as [| | |s| |]; try reflexivity.
  cbn [method_replace]. simpl.
  apply elem_of_cons in Hin as [->|Hin]; [by destruct (Hv s)|].
  rewrite (IH Hin). reflexivity.
Qed.

Lemma command_with_non_string_token_witness :
  replace_make_job_flags DPP_MAKE_JOB (JArr [JStr "make"; JInt 4; JStr "all"])
    = Raise AttributeError.
Proof.
  apply (command_with_non_string_token DPP_MAKE_JOB
           [JStr "make"; JInt 4; JStr "all"] (JInt 4)).
  - repeat constructor.
  - discriminate.
Defined.

Lemma prefix_append (old post : string) : String.prefix old (old +:+ post) = true.
Proof.
  induction old as [|a old IH]; [by destruct post|].
  rewrite append_cons, prefix_cons. destruct (ascii_dec a a); [exact IH|done].
Qed.

Lemma replace_from_skip (old new o post : string) :
  replace_from old new (String.length o) (o +:+ post) = replace_from old new 0 post.
Proof.
  induction o as [|a o IH]; [reflexivity|].
  rewrite append_cons. exact IH.
Qed.

(** At an occurrence of [old] the replacement is written and the scan goes
    on behind the occurrence. *)
Lemma str_replace_at_occurrence (a : ascii) (old new post : string) :
  str_replace (String a old) new (String a old +:+ post) =
    new +:+ str_replace (String a old) new post.
Proof.
  unfold str_replace. rewrite append_cons. cbn [replace_from].
  rewrite <- append_cons, prefix_append.
  f_equal.
  replace (String.length (String a old) - 1) with (String.length old)
    by (simpl; lia).
  apply replace_from_skip.
Qed.

Lemma str_replace_pass_char (job : string) (c : ascii) (s : string) :
  c ≠ "@"%char →
  str_replace "@DPP_MAKE_JOB@" job (String c s) =
    String c (str_replace "@DPP_MAKE_JOB@" job s).
Proof.
  intros Hc. unfold str_replace. cbn [replace_from]. rewrite prefix_cons.
  destruct (ascii_dec "@" c) as [<-|]; [done|reflexivity].
Qed.

(** X8: a token made of a prefix without [@], the marker, and a rest
    becomes the prefix, the job count, and the rest with its own markers
    replaced: [-j@DPP_MAKE_JOB@] becomes [-j] followed by the job count. *)
Theorem marker_after_prefix_replaced (job pre post : string) :
  has_char "@" pre = false →
  str_replace "@DPP_MAKE_JOB@" job (pre +:+ "@DPP_MAKE_JOB@" +:+ post) =
    pre +:+ job +:+ str_replace "@DPP_MAKE_JOB@" job post.
Proof.
  induction pre as [|c pre IH]; intros Hno.
  - apply str_replace_at_occurrence.
  - simpl in Hno. destruct (ascii_dec c "@") as [|Hc]; [discriminate|].
    rewrite !append_cons, str_replace_pass_char by exact Hc.
    f_equal. apply IH, Hno.
Qed.

Lemma marker_after_prefix_replaced_witness :
  str_replace "@DPP_MAKE_JOB@" "8" ("-j" +:+ "@DPP_MAKE_JOB@" +:+ " all") =
    "-j" +:+ "8" +:+ str_replace "@DPP_MAKE_JOB@" "8" " all".
Proof.
  apply (marker_after_prefix_replaced "8" "-j" " all"). reflexivity.
Defined.

(** ** The job marker inside a token (C7) *)

Lemma str_replace_without_at (job s : string) :
  has_char "@" s = false → str_replace "@DPP_MAKE_JOB@" job s = s.
Proof.
  induction s as [|c s IH]; intros Hno; [reflexivity|].
  simpl in Hno. destruct (ascii_dec c "@") as [|Hc]; [discriminate|].
  rewrite str_replace_pass_char by exact Hc. f_equal. apply IH, Hno.
Qed.

Lemma str_replace_prefix_marker (job pre post : string) :
  has_char "@" pre = false →
  str_replace "@DPP_MAKE_JOB@" job (pre +:+ "@DPP_MAKE_JOB@" +:+ post) =
    pre +:+ job +:+ str_replace "@DPP_MAKE_JOB@" job post.
Proof.
  induction pre as [|c pre IH]; intros Hno.
  - apply str_replace_at_occurrence.
  - simpl in Hno. destruct (ascii_dec c "@") as [|Hc]; [discriminate|].
    rewrite !append_cons, str_replace_pass_char by exact Hc.
    f_equal. apply IH, Hno.
Qed.

(** A token cut at its markers into pieces without [@] comes out as the
    pieces joined by the job count. *)
Lemma str_replace_pieces (job : string) (pieces : list string) :
  marker_free_pieces pieces →
  str_replace "@DPP_MAKE_JOB@" job (String.concat "@DPP_MAKE_JOB@" pieces) =
    String.concat job pieces.
Proof.
  intros [Hne Hall]. induction Hall as [|p rest Hp Hrest IH]; [done|].
  destruct rest as [|q rest].
  - by apply str_replace_without_at.
  - change (String.concat "@DPP_MAKE_JOB@" (p :: q :: rest))
      with (p +:+ "@DPP_MAKE_JOB@" +:+ String.concat "@DPP_MAKE_JOB@" (q :: rest)).
    change (String.concat job (p :: q :: rest))
      with (p +:+ job +:+ String.concat job (q :: rest)).
    rewrite str_replace_prefix_marker by exact Hp.
    by rewrite IH.
Qed.

(** C7, amended: within one load each of the four command vectors is the
    raw vector with the marker replaced inside every token, by the same
    job count for all four.  The replacement is the one of [str.replace]:
    a token that consists of pieces without [@] separated by markers,
    which need not be the bare marker, becomes the pieces joined by the
    job count; the bare marker becomes the job count; a token in which the
    marker does not occur is kept; nothing else is done to the vectors. *)
Theorem job_marker_replaced_inside_tokens
    (job : string) (meta : json) (c : Common) (b bc t tc : list string) :
  meta.["common"] >.["build"] >.["command"] = Ok (JArr (JStr <$> b)) →
  meta.["common"] >.["build-coverage"] >.["command"] = Ok (JArr (JStr <$> bc)) →
  meta.["common"] >.["test"] >.["command"] = Ok (JArr (JStr <$> t)) →
  meta.["common"] >.["test-coverage"] >.["command"] = Ok (JArr (JStr <$> tc)) →
  _load_common_value job meta = Ok c →
  (build_command c = str_replace "@DPP_MAKE_JOB@" job <$> b ∧
   build_coverage_command c = str_replace "@DPP_MAKE_JOB@" job <$> bc ∧
   test_command c = str_replace "@DPP_MAKE_JOB@" job <$> t ∧
   test_coverage_command c = str_replace "@DPP_MAKE_JOB@" job <$> tc) ∧
  (∀ pieces, marker_free_pieces pieces →
     str_replace "@DPP_MAKE_JOB@" job (String.concat "@DPP_MAKE_JOB@" pieces)
       = String.concat job pieces) ∧
  str_replace "@DPP_MAKE_JOB@" job "@DPP_MAKE_JOB@" = job ∧
  (∀ token, ¬ occurs "@DPP_MAKE_JOB@" token →
            str_replace "@DPP_MAKE_JOB@" job token = token).
Proof.
  intros Hb Hbc Ht Htc Hload.
  apply _load_common_value_ok in Hload as (Cb & Cbc & _ & Ct & Ctc).
  rewrite Hb in Cb. rewrite Hbc in Cbc. rewrite Ht in Ct. rewrite Htc in Ctc.
  simpl in Cb, Cbc, Ct, Ctc.
  rewrite replace_make_job_flags_strings in Cb, Cbc, Ct, Ctc.
  split; [repeat split; congruence|].
  split; [intros pieces; apply str_replace_pieces|].
  split; [|intros token; apply str_replace_absent].
  unfold str_replace. simpl. apply append_empty_r.
Qed.

Lemma job_marker_replaced_inside_tokens_witness :
  (build_command
     (mkCommon ["make"; "-j8"] ["make"; "coverage"] (Some CTest) ["ctest"]
        ["ctest"; "-T"; "Coverage"] (mkGcov [JStr "test"] (JStr "gcov")))
     = str_replace "@DPP_MAKE_JOB@" "8" <$> ["make"; "-j@DPP_MAKE_JOB@"] ∧
   build_coverage_command
     (mkCommon ["make"; "-j8"] ["make"; "coverage"] (Some CTest) ["ctest"]
        ["ctest"; "-T"; "Coverage"] (mkGcov [JStr "test"] (JStr "gcov")))
     = str_replace "@DPP_MAKE_JOB@" "8" <$> ["make"; "coverage"] ∧
   test_command
     (mkCommon ["make"; "-j8"] ["make"; "coverage"] (Some CTest) ["ctest"]
        ["ctest"; "-T"; "Coverage"] (mkGcov [JStr "test"] (JStr "gcov")))
     = str_replace "@DPP_MAKE_JOB@" "8" <$> ["ctest"] ∧
   test_coverage_command
     (mkCommon ["make"; "-j8"] ["make"; "coverage"] (Some CTest) ["ctest"]
        ["ctest"; "-T"; "Coverage"] (mkGcov [JStr "test"] (JStr "gcov")))
     = str_replace "@DPP_MAKE_JOB@" "8" <$> ["ctest"; "-T"; "Coverage"]) ∧
  (∀ pieces, marker_free_pieces pieces →
     str_replace "@DPP_MAKE_JOB@" "8" (String.concat "@DPP_MAKE_JOB@" pieces)
       = String.concat "8" pieces) ∧
  str_replace "@DPP_MAKE_JOB@" "8" "@DPP_MAKE_JOB@" = "8" ∧
  (∀ token, ¬ occurs "@DPP_MAKE_JOB@" token →
            str_replace "@DPP_MAKE_JOB@" "8" token = token).
Proof.
  apply (job_marker_replaced_inside_tokens "8" descriptor).
  - reflexivity.
  - reflexivity.
  - reflexivity.
  - reflexivity.
  - vm_compute; reflexivity.
Defined.

(** The token of the sample descriptor, cut into its pieces. *)
Example job_marker_in_sample_token :
  str_replace "@DPP_MAKE_JOB@" "8" (String.concat "@DPP_MAKE_JOB@" ["-j"; ""]) = "-j8".
Proof. reflexivity. Qed.

(** The gcov part of a successful [_load_common_value]. *)
Lemma _load_common_value_gcov (job : string) (meta : json) (c : Common) :
  _load_common_value job meta = Ok c →
  meta.["common"] >.["gcov"] >.["exclude"] ≫= iterate = Ok (exclude (gcov c)) ∧
  meta.["common"] >.["gcov"] >.["command"] = Ok (command (gcov c)).
Proof.
  intros H%except_KeyError_ok. revert H.
  destruct (meta.["common"] >.["build"] >.["command"] ≫= replace_make_job_flags job)
    as [b|]; [|discriminate].
  destruct (meta.["common"] >.["build-coverage"] >.["command"] ≫= replace_make_job_flags job)
    as [bc|]; [|discriminate].
  destruct (to_enum <$> meta.["common"] >.["test-type"]) as [ty|]; [|discriminate].
  destruct (meta.["common"] >.["test"] >.["command"] ≫= replace_make_job_flags job)
    as [t|]; [|discriminate].
  destruct (meta.["common"] >.["test-coverage"] >.["command"] ≫= replace_make_job_flags job)
    as [tc|]; [|discriminate].
  simpl.
  destruct (meta.["common"] >.["gcov"] >.["exclude"] ≫= iterate); [|discriminate].
  simpl.
  destruct (meta.["common"] >.["gcov"] >.["command"]); [|discriminate].
  simpl. intros [= <-]. done.
Qed.

(** X9: the gcov configuration is taken over as it stands: the exclusion
    list element by element and the gcov command unchanged, so a job marker
    inside the gcov command is not replaced. *)
Theorem gcov_taken_over_unchanged
    (job : string) (meta : json) (c : Common) (items : list json) (cmd : json) :
  meta.["common"] >.["gcov"] >.["exclude"] = Ok (JArr items) →
  meta.["common"] >.["gcov"] >.["command"] = Ok cmd →
  _load_common_value job meta = Ok c →
  exclude (gcov c) = items ∧ command (gcov c) = cmd.
Proof.
  intros He Hc Hload.
  apply _load_common_value_gcov in Hload as (Ce & Cc).
  rewrite He in Ce. rewrite Hc in Cc. simpl in Ce.
  split; congruence.
Qed.

Lemma gcov_taken_over_unchanged_witness :
  exclude (gcov (mkCommon ["make"; "-j8"] ["make"; "coverage"] (Some CTest)
                   ["ctest"] ["ctest"; "-T"; "Coverage"]
                   (mkGcov [JStr "test"] (JStr "gcov")))) = [JStr "test"] ∧
  command (gcov (mkCommon ["make"; "-j8"] ["make"; "coverage"] (Some CTest)
                   ["ctest"] ["ctest"; "-T"; "Coverage"]
                   (mkGcov [JStr "test"] (JStr "gcov")))) = JStr "gcov".
Proof.
  apply (gcov_taken_over_unchanged DPP_MAKE_JOB descriptor).
  - reflexivity.
  - reflexivity.
  - vm_compute; reflexivity.
Defined.

(** X10: [to_enum] yields a test type exactly for the string that spells
    it; a value that is not a string, or any other string, yields [None]. *)
Theorem to_enum_exactly_the_names (value : json) (t : TestType) :
  to_enum value = Some t ↔ value = JStr (TestType_name t).
Proof.
  split.
  - destruct value as [| | |s| |]; simpl; try discriminate.
    destruct (String.eqb_spec s "automake") as [->|]; [by intros [= <-]|].
    destruct (String.eqb_spec s "ctest") as [->|]; [by intros [= <-]|].
    destruct (String.eqb_spec s "gtest") as [->|]; [by intros [= <-]|].
    discriminate.
  - intros ->. by destruct t.
Qed.

(** * Further properties of the defects *)

Lemma digits_value_zeros (k : nat) (s : string) :
  digits_value (zeros k +:+ s) = digits_value s.
Proof.
  unfold digits_value. induction k as [|k IH]; [reflexivity|].
  cbn [zeros]. rewrite append_cons. cbn [NilEmpty.uint_of_string].
  rewrite <- IH.
  by destruct (NilEmpty.uint_of_string (zeros k +:+ s)).
Qed.

Lemma digits_value_decimal (m : N) : digits_value (decimal m) = Some m.
Proof.
  unfold digits_value, decimal.
  rewrite <- (Unsigned.of_to m) at 2.
  destruct (N.to_uint m) as [|d|d|d|d|d|d|d|d|d|d]; [reflexivity|..];
    unfold NilZero.string_of_uint; by rewrite NilEmpty.usu.
Qed.

Lemma digits_value_padded (k : nat) (m : N) :
  digits_value (zeros k +:+ decimal m) = Some m.
Proof. by rewrite digits_value_zeros, digits_value_decimal. Qed.

Lemma format_int_04_shape (n : Z) :
  (0 ≤ n)%Z → ∃ k, format_int_04 n = zeros k +:+ decimal (Z.to_N n).
Proof.
  intros Hn. unfold format_int_04.
  destruct (Z.ltb_spec n 0); [lia|].
  replace (Z.abs_N n) with (Z.to_N n) by (destruct n; [reflexivity..|lia]).
  by eexists.
Qed.

(** X11: the number field of a patch file name can be read back: the
    digits that [format(n, "04")] writes for an index [n ≥ 0] denote [n],
    padding included. *)
Theorem format_int_04_read_back (n : Z) :
  (0 ≤ n)%Z → digits_value (format_int_04 n) = Some (Z.to_N n).
Proof.
  intros [k ->]%format_int_04_shape. apply digits_value_padded.
Qed.

Lemma format_int_04_read_back_witness :
  digits_value (format_int_04 15) = Some (Z.to_N 15).
Proof. apply (format_int_04_read_back 15). lia. Defined.

Lemma append_cancel_r (s1 s2 t : string) : s1 +:+ t = s2 +:+ t → s1 = s2.
Proof.
  revert s2. induction s1 as [|a s1 IH]; intros [|b s2] H.
  - reflexivity.
  - apply (f_equal String.length) in H.
    rewrite !length_append in H. simpl in H. lia.
  - apply (f_equal String.length) in H.
    rewrite !length_append in H. simpl in H. lia.
  - rewrite !append_cons in H. injection H as -> H. f_equal. by apply IH.
Qed.

Lemma defect_entry_buggy_patch
    (fmt : string → Res string) (path : string) (entry : json) (n : Z) (d : Defect) :
  entry.["patch"] = Ok (JInt n) →
  defect_entry fmt path entry = Ok d →
  buggy_patch d = path +:+ "/patch/" +:+ format_int_04 n +:+ "-buggy.patch".
Proof.
  intros Hp He. unfold defect_entry in He. rewrite Hp in He.
  unfold_monad. simpl in He.
  destruct (entry.["hash"]); [|discriminate].
  destruct (entry.["cases"]); [|discriminate].
  by injection He as <-.
Qed.

(** X12: under one project path, two defect entries with different indices
    [n, m ≥ 0] never share their buggy patch file. *)
Theorem distinct_indices_distinct_patches
    (fmt : string → Res string) (path : string)
    (entry1 entry2 : json) (n m : Z) (d1 d2 : Defect) :
  entry1.["patch"] = Ok (JInt n) →
  entry2.["patch"] = Ok (JInt m) →
  (0 ≤ n)%Z → (0 ≤ m)%Z → n ≠ m →
  defect_entry fmt path entry1 = Ok d1 →
  defect_entry fmt path entry2 = Ok d2 →
  buggy_patch d1 ≠ buggy_patch d2.
Proof.
  intros Hp1 Hp2 Hn Hm Hne He1 He2 Heq.
  rewrite (defect_entry_buggy_patch _ _ _ _ _ Hp1 He1) in Heq.
  rewrite (defect_entry_buggy_patch _ _ _ _ _ Hp2 He2) in Heq.
  apply (inj (String.append path)), (inj (String.append "/patch/")) in Heq.
  apply append_cancel_r in Heq.
  destruct (format_int_04_shape n Hn) as [k Hk].
  destruct (format_int_04_shape m Hm) as [k' Hk'].
  rewrite Hk, Hk' in Heq.
  apply (f_equal digits_value) in Heq.
  rewrite !digits_value_padded in Heq.
  injection Heq as Heq. lia.
Qed.

Lemma distinct_indices_distinct_patches_witness :
  buggy_patch (mkDefect (JStr "0123abc") "/t/p/patch/0003-buggy.patch"
                 "/t/p/patch/0003-split.patch" (JInt 7)) ≠
  buggy_patch (mkDefect (JStr "0123abc") "/t/p/patch/0015-buggy.patch"
                 "/t/p/patch/0015-split.patch" (JInt 7)).
Proof.
  apply (distinct_indices_distinct_patches format_str_04 "/t/p"
           (defect 3) (defect 15) 3 15).
  - reflexivity.
  - reflexivity.
  - lia.
  - lia.
  - lia.
  - reflexivity.
  - reflexivity.
Defined.

Lemma comprehension_length {A B} (f : A → Res B) (l : list A) (ys : list B) :
  comprehension f l = Ok ys → length ys = length l.
Proof.
  revert ys. induction l as [|a l IH]; intros ys; simpl.
  - by intros [= <-].
  - unfold mbind, Res_bind.
    destruct (f a); [|discriminate].
    destruct (comprehension f l) as [bs|]; [|discriminate].
    intros [= <-]. simpl. f_equal. by apply IH.
Qed.

(** X13: a successful load keeps the defects of the descriptor in number
    and in order, and hands the [hash] and the [cases] of every entry over
    unchanged. *)
Theorem defects_kept_in_order
    (fmt : string → Res string) (path : string) (meta : json)
    (entries : list json) (ds : list Defect) :
  meta.["defects"] = Ok (JArr entries) →
  _load_info_value fmt path meta = Ok ds →
  length ds = length entries ∧
  ∀ (k : nat) (entry : json),
    entries !! k = Some entry →
    ∃ d : Defect,
      ds !! k = Some d ∧
      entry.["hash"] = Ok (hash d) ∧
      entry.["cases"] = Ok (cases d).
Proof.
  intros Hm Hload.
  unfold _load_info_value in Hload. apply except_KeyError_ok in Hload.
  rewrite Hm in Hload. simpl in Hload.
  split; [by eapply comprehension_length|].
  intros k entry Hk.
  destruct (comprehension_lookup _ _ _ _ _ Hload Hk) as (d & Hd & He).
  exists d. split; [exact Hd|].
  unfold defect_entry in He. unfold_monad.
  destruct (entry.["hash"]) as [h|]; [|discriminate].
  destruct (entry.["patch"]) as [p|]; [|discriminate]. simpl in He.
  destruct (format_04 fmt p); [|discriminate].
  destruct (entry.["cases"]) as [c|]; [|discriminate].
  by injection He as <-.
Qed.

Lemma defects_kept_in_order_witness :
  length [mkDefect (JStr "0123abc") "/t/p/patch/0003-buggy.patch"
            "/t/p/patch/0003-split.patch" (JInt 7);
          mkDefect (JStr "0123abc") "/t/p/patch/0015-buggy.patch"
            "/t/p/patch/0015-split.patch" (JInt 7)]
    = length [defect 3; defect 15] ∧
  ∀ (k : nat) (entry : json),
    [defect 3; defect 15] !! k = Some entry →
    ∃ d : Defect,
      [mkDefect (JStr "0123abc") "/t/p/patch/0003-buggy.patch"
         "/t/p/patch/0003-split.patch" (JInt 7);
       mkDefect (JStr "0123abc") "/t/p/patch/0015-buggy.patch"
         "/t/p/patch/0015-split.patch" (JInt 7)] !! k = Some d ∧
      entry.["hash"] = Ok (hash d) ∧
      entry.["cases"] = Ok (cases d).
Proof.
  apply (defects_kept_in_order format_str_04 "/t/p" descriptor).
  - reflexivity.
  - vm_compute; reflexivity.
Defined.

(** * Further properties of the registry *)

Lemma dict_of_pairs_dom {V} (pairs : list (string * V)) :
  dom (dict_of_pairs pairs) = list_to_set pairs.*1.
Proof.
  unfold dict_of_pairs.
  assert (Hgen : ∀ acc : gmap string V,
             dom (foldl (λ d kv, <[kv.1 := kv.2]> d) acc pairs)
               = dom acc ∪ list_to_set pairs.*1).
  { induction pairs as [|[k v] pairs IH]; intros acc.
    - simpl. by rewrite (right_id_L ∅ (∪)).
    - rewrite fmap_cons, list_to_set_cons. simpl. rewrite IH, dom_insert_L.
      by rewrite (comm_L (∪) {[k]}), (assoc_L (∪)). }
  by rewrite Hgen, dom_empty_L, (left_id_L ∅ (∪)).
Qed.

Lemma dict_of_pairs_lookup {V} (pairs : list (string * V)) (k : string) (v : V) :
  dict_of_pairs pairs !! k = Some v → (k, v) ∈ pairs.
Proof.
  unfold dict_of_pairs.
  assert (Hgen : ∀ acc : gmap string V,
             foldl (λ d kv, <[kv.1 := kv.2]> d) acc pairs !! k = Some v →
             (k, v) ∈ pairs ∨ acc !! k = Some v).
  { induction pairs as [|[k' v'] pairs IH]; intros acc; simpl.
    - by right.
    - intros [Hin|Hacc]%IH; [left; by right|].
      destruct (decide (k' = k)) as [->|Hne].
      + rewrite lookup_insert_eq in Hacc. injection Hacc as ->. left. by left.
      + rewrite lookup_insert_ne in Hacc by done. by right. }
  intros [Hin|Hacc]%Hgen; [exact Hin|]. by rewrite lookup_empty in Hacc.
Qed.

Lemma bind_ok {St A B} (m : M St A) (f : A → M St B) (s s' : St) (a : A) :
  m s = (Ok a, s') → (m ≫= f) s = f a s'.
Proof. intros H. unfold mbind, M_bind. by rewrite H. Qed.

(** The pairs built by the loop of [Taxonomy.__init__]. *)
Lemma Taxonomy_init_pairs (dir : string) (modules : list string) (w : World) :
  ∃ pairs : list (string * MetaData),
    for_each (λ name, md ← MetaData_init name (join dir [name]); mret (name, md))
      modules w
      = (Ok pairs, mkWorld (fs w) (opened w) (next_id w + length modules)) ∧
    pairs.*1 = modules ∧
    Forall (λ p, name p.2 = p.1 ∧ _path p.2 = join dir [p.1] ∧ unloaded p.2) pairs.
Proof.
  revert w. induction modules as [|m modules IH]; intros w.
  - exists []. simpl. unfold mret, M_ret. destruct w; simpl.
    rewrite Nat.add_0_r. by repeat split.
  - destruct (IH (mkWorld (fs w) (opened w) (S (next_id w))))
      as (pairs & Hrun & Hkeys & Hall).
    eexists ((m, _) :: pairs). cbn [for_each].
    unfold mbind, M_bind, MetaData_init, new, mret, M_ret in *. simpl in *.
    rewrite Hrun. split; [do 2 f_equal; lia|].
    split; [by f_equal|].
    constructor; [by repeat split|exact Hall].
Qed.

(** X14: the construction of the registry opens no file and changes none;
    the registry gets an entry exactly for the discovered names, and the
    entry of a name is an unloaded [MetaData] of that name whose path is the
    directory of the registry joined with the name. *)
Theorem registry_construction (dir : string) (modules : list string) (w : World) :
  ∃ (tx : Taxonomy) (w' : World),
    Taxonomy_init dir modules w = (Ok tx, w') ∧
    base tx = dir ∧
    fs w' = fs w ∧ opened w' = opened w ∧
    (∀ key, is_Some (store tx !! key) ↔ key ∈ modules) ∧
    (∀ key md, store tx !! key = Some md →
       name md = key ∧ _path md = join dir [key] ∧ unloaded md).
Proof.
  destruct (Taxonomy_init_pairs dir modules w) as (pairs & Hrun & Hkeys & Hall).
  unfold Taxonomy_init. rewrite (bind_ok _ _ _ _ _ Hrun).
  do 2 eexists. split; [reflexivity|]. simpl.
  split; [reflexivity|]. split; [reflexivity|]. split; [reflexivity|].
  split.
  - intros key. rewrite <- elem_of_dom, dict_of_pairs_dom, Hkeys.
    apply elem_of_list_to_set.
  - intros key md Hlook%dict_of_pairs_lookup.
    rewrite Forall_forall in Hall. exact (Hall _ Hlook).
Qed.

(** X15: when the discovered names are pairwise distinct, the length of the
    registry is their number. *)
Theorem registry_length
    (dir : string) (modules : list string) (w w' : World) (tx : Taxonomy) :
  NoDup modules →
  Taxonomy_init dir modules w = (Ok tx, w') →
  __len__ (w', tx) = (Ok (length modules), (w', tx)).
Proof.
  intros Hnd Hinit.
  destruct (Taxonomy_init_pairs dir modules w) as (pairs & Hrun & Hkeys & _).
  unfold Taxonomy_init in Hinit. rewrite (bind_ok _ _ _ _ _ Hrun) in Hinit.
  injection Hinit as <- <-.
  unfold __len__, gets. simpl. do 2 f_equal.
  rewrite <- size_dom, dict_of_pairs_dom, Hkeys.
  by apply size_list_to_set.
Qed.

Lemma registry_length_witness :
  __len__ ((Taxonomy_init "/t" ["p"; "q"] (world_with descriptor)).2,
           mkTaxonomy "/t"
             (dict_of_pairs
                [("p", mkMetaData "p" "/t/p" None None (Obj 1 []));
                 ("q", mkMetaData "q" "/t/q" None None (Obj 2 []))]))
    = (Ok (length ["p"; "q"]),
       ((Taxonomy_init "/t" ["p"; "q"] (world_with descriptor)).2,
        mkTaxonomy "/t"
          (dict_of_pairs
             [("p", mkMetaData "p" "/t/p" None None (Obj 1 []));
              ("q", mkMetaData "q" "/t/q" None None (Obj 2 []))]))).
Proof.
  apply (registry_length "/t" ["p"; "q"] (world_with descriptor)).
  - apply (bool_decide_unpack _). reflexivity.
  - reflexivity.
Defined.

(** X16: a key whose descriptor file exists but which is not an entry of
    the registry (a directory that was not discovered as a module) makes
    the lookup raise KeyError for that key; nothing is changed. *)
Theorem lookup_of_unregistered_key (key : string) (w : World) (tx : Taxonomy) :
  is_Some (fs w !! join (base tx) [key; "meta.json"]) →
  store tx !! key = None →
  __getitem__ key (w, tx) = (Raise (KeyError key), (w, tx)).
Proof.
  intros Hfile Hkey.
  unfold __getitem__, _keytransform, exists_. unfold_monad. simpl.
  rewrite bool_decide_eq_true_2 by exact Hfile. simpl.
  by rewrite Hkey.
Qed.

Lemma lookup_of_unregistered_key_witness :
  __getitem__ "p" (world_with descriptor, mkTaxonomy "/t" ∅)
    = (Raise (KeyError "p"), (world_with descriptor, mkTaxonomy "/t" ∅)).
Proof.
  apply (lookup_of_unregistered_key "p" (world_with descriptor) (mkTaxonomy "/t" ∅)).
  - vm_compute. eexists. reflexivity.
  - reflexivity.
Defined.

(** The file that [_keytransform] checks is the file that [_load] opens,
    unless the joined path is empty or ends with a separator. *)
Lemma checked_file_is_loaded_file (dir key : string) :
  join dir [key] ≠ "" →
  ends_with_sep (join dir [key]) = false →
  join dir [key; "meta.json"] = join dir [key] +:+ "/meta.json".
Proof.
  intros Hne Hsep. unfold join in *. simpl in *.
  unfold join2 at 1.
  rewrite Hsep, bool_decide_eq_false_2 by exact Hne. reflexivity.
Qed.

(** X17: a [MetaData] returned by the lookup in a freshly constructed
    registry is the unloaded object of the key, the lookup has changed
    nothing, and the descriptor file that a load of the object will open
    exists, provided the project path is not empty and does not end with
    a separator. *)
Theorem looked_up_project_is_loadable
    (dir : string) (modules : list string) (w w1 : World) (tx : Taxonomy)
    (key : string) (md : MetaData) (st : registry_state) :
  Taxonomy_init dir modules w = (Ok tx, w1) →
  __getitem__ key (w1, tx) = (Ok md, st) →
  join dir [key] ≠ "" →
  ends_with_sep (join dir [key]) = false →
  st = (w1, tx) ∧ name md = key ∧ unloaded md ∧
  is_Some (fs w1 !! meta_json md).
Proof.
  intros Hinit Hget Hne Hsep.
  destruct (Taxonomy_init_pairs dir modules w) as (pairs & Hrun & _ & Hall).
  unfold Taxonomy_init in Hinit. rewrite (bind_ok _ _ _ _ _ Hrun) in Hinit.
  injection Hinit as Htx Hw1. rewrite Forall_forall in Hall.
  revert Hget. unfold __getitem__, _keytransform, exists_. unfold_monad. simpl.
  case_bool_decide as Hfile; simpl; [|discriminate].
  destruct (store tx !! key) as [md'|] eqn:Hlook; [|discriminate].
  intros [= -> <-].
  rewrite <- Htx in Hlook, Hfile. simpl in Hlook, Hfile.
  destruct (Hall _ (dict_of_pairs_lookup _ _ _ Hlook)) as (Hname & Hpath & Hun).
  split; [reflexivity|]. split; [exact Hname|]. split; [exact Hun|].
  unfold meta_json. cbn [fst snd] in Hpath.
  by rewrite Hpath, <- checked_file_is_loaded_file.
Qed.

Lemma looked_up_project_is_loadable_witness :
  let w1 := (Taxonomy_init "/t" ["p"] (world_with descriptor)).2 in
  let md := mkMetaData "p" "/t/p" None None (Obj 1 []) in
  let tx := mkTaxonomy "/t" (dict_of_pairs [("p", md)]) in
  (w1, tx) = (w1, tx) ∧ name md = "p" ∧ unloaded md ∧
  is_Some (fs w1 !! meta_json md).
Proof.
  apply (looked_up_project_is_loadable "/t" ["p"] (world_with descriptor)
           (Taxonomy_init "/t" ["p"] (world_with descriptor)).2
           (mkTaxonomy "/t"
              (dict_of_pairs [("p", mkMetaData "p" "/t/p" None None (Obj 1 []))]))
           "p").
  - reflexivity.
  - vm_compute; reflexivity.
  - discriminate.
  - reflexivity.
Defined.

(** * Further properties of the build command *)

(** X18: when the descriptor of the resolved project cannot be loaded, [run]
    raises the error of the load as it is and returns no request. *)
Theorem run_surfaces_load_error
    (job : string) (fmt : string → Res string) (Worktree : Type)
    (parse_args : list string → Res Build.Args)
    (read_config : string → M World (MetaData * Worktree))
    (argv : list string) (args : Build.Args)
    (w w1 : World) (md : MetaData) (wt : Worktree)
    (e : exn) (st : self_state) :
  parse_args argv = Ok args →
  read_config (Build.path args) w = (Ok (md, wt), w1) →
  common job fmt (w1, md) = (Raise e, st) →
  Build.run job fmt Worktree parse_args read_config argv w = (Raise e, st.1).
Proof.
  intros Hargs Hcfg Hcommon.
  unfold Build.run, Build.call. unfold_monad.
  rewrite Hargs, Hcfg, Hcommon. by destruct st.
Qed.

Lemma run_surfaces_load_error_witness :
  Build.run DPP_MAKE_JOB format_str_04 string parse_args read_config
      ["--verbose"] (world_with descriptor_without_test_type)
    = (Raise (DppTaxonomyInitError "test-type" "Common"),
       (common DPP_MAKE_JOB format_str_04
          (world_with descriptor_without_test_type, self0)).2.1).
Proof.
  apply (run_surfaces_load_error DPP_MAKE_JOB format_str_04 string
           parse_args read_config ["--verbose"] (Build.mkArgs "/work" false true)
           (world_with descriptor_without_test_type)
           (world_with descriptor_without_test_type) self0 "/work"
           (DppTaxonomyInitError "test-type" "Common")
           (common DPP_MAKE_JOB format_str_04
              (world_with descriptor_without_test_type, self0)).2).
  - vm_compute; reflexivity.
  - reflexivity.
  - vm_compute; reflexivity.
Defined.

(** X19: for a project whose common record is already cached, [run] opens
    no file and changes no object: it leaves the world as [read_config]
    left it and puts the resolved [MetaData] into the request as it is,
    with the one script taken from the cached record. *)
Theorem run_with_cached_common
    (job : string) (fmt : string → Res string) (Worktree : Type)
    (parse_args : list string → Res Build.Args)
    (read_config : string → M World (MetaData * Worktree))
    (argv : list string) (args : Build.Args)
    (w w1 : World) (md : MetaData) (wt : Worktree) (c : obj Common) :
  parse_args argv = Ok args →
  read_config (Build.path args) w = (Ok (md, wt), w1) →
  _common md = Some c →
  Build.run job fmt Worktree parse_args read_config argv w =
    (Ok (Build.mkDockerExecInfo md wt
           [Build.mkBuildCommandScript
              (if Build.coverage args
               then build_coverage_command (oval c)
               else build_command (oval c))]
           (Build.verbose args)),
     w1).
Proof.
  intros Hargs Hcfg Hc.
  unfold Build.run, Build.call, common. unfold_monad.
  rewrite Hargs, Hcfg. simpl. rewrite Hc. simpl. rewrite Hc.
  by destruct (Build.coverage args), (Build.verbose args).
Qed.

Lemma run_with_cached_common_witness :
  let c := Obj 4 (mkCommon ["make"; "-j8"] ["make"; "coverage"] (Some CTest)
                    ["ctest"] ["ctest"; "-T"; "Coverage"]
                    (mkGcov [JStr "test"] (JStr "gcov"))) in
  let md := mkMetaData "p" "/t/p" None (Some c) (Obj 0 []) in
  Build.run DPP_MAKE_JOB format_str_04 string parse_args
      (λ dir, mret (md, dir)) [] (mkWorld ∅ [] 5)
    = (Ok (Build.mkDockerExecInfo md "/work"
             [Build.mkBuildCommandScript
                (if Build.coverage (Build.mkArgs "/work" false false)
                 then build_coverage_command (oval c)
                 else build_command (oval c))]
             (Build.verbose (Build.mkArgs "/work" false false))),
       mkWorld ∅ [] 5).
Proof.
  apply (run_with_cached_common DPP_MAKE_JOB format_str_04 string parse_args
           _ [] (Build.mkArgs "/work" false false)).
  - reflexivity.
  - reflexivity.
  - reflexivity.
Defined.
